(** * pico-ssd1306: framebuffer, rasterizer, glyph and bitmap routines

    A shallow embedding of [ssd1306.c] / [ssd1306.h] and the properties of
    its drawing primitives.

    Conventions of the embedding.
    - C integers are [Z] with the wrap-around of each conversion written out
      ([wrap8], [wrap16], [wrap32], [to_int32]).
    - A drawing routine has type [ssd1306_t -> option ssd1306_t].  [None]
      stands for an execution that has no defined result in C: an access
      outside the pixel buffer, the font or the image array, the [switch] on
      [rotation] falling through with [buffer_x], [buffer_y] never written,
      a signed overflow, or a [float] to [uint32_t] conversion out of range.
    - The target is the RP2040 (ARM EABI): [char] is unsigned, [int] and
      [size_t] are 32 bits wide, [float] is IEEE-754 binary32. *)

From Stdlib Require Import ZArith List Lia Bool.
From Stdlib Require Import SpecFloat.
From stdpp Require Import base option list.
Import ListNotations.
Local Open Scope Z_scope.

(** ** Machine integers *)

Module CInt.

Definition wrap8 (z : Z) : Z := z mod 2 ^ 8.
Definition wrap16 (z : Z) : Z := z mod 2 ^ 16.
Definition wrap32 (z : Z) : Z := z mod 2 ^ 32.

Definition INT32_MAX : Z := 2 ^ 31 - 1.
Definition INT32_MIN : Z := - 2 ^ 31.

(** Conversion of a 32-bit pattern to [int32_t] (two's complement). *)
Definition to_int32 (z : Z) : Z :=
  let u := wrap32 z in if u <? 2 ^ 31 then u else u - 2 ^ 32.

Definition in_int32 (z : Z) : bool := (INT32_MIN <=? z) && (z <=? INT32_MAX).

(** Signed arithmetic: an overflow has no defined result. *)
Definition int32_checked (z : Z) : option Z :=
  if in_int32 z then Some z else None.

Definition is_uint8 (z : Z) : Prop := 0 <= z < 2 ^ 8.
Definition is_uint16 (z : Z) : Prop := 0 <= z < 2 ^ 16.
Definition is_uint32 (z : Z) : Prop := 0 <= z < 2 ^ 32.

End CInt.
Export CInt.

(** Array read [a[i]]: [None] outside the array. *)
Definition read (a : list Z) (i : Z) : option Z :=
  if i <? 0 then None else a !! Z.to_nat i.

(** ** The display ([ssd1306_t], ssd1306.h) *)

Record ssd1306_t : Type := mk_ssd1306 {
  width : Z;            (* uint8_t *)
  height : Z;           (* uint8_t *)
  pages : Z;            (* uint8_t *)
  address : Z;          (* uint8_t *)
  i2c_i : Z;            (* i2c_inst_t *, an opaque handle *)
  external_vcc : bool;
  buffer : list Z;      (* the bytes p->buffer[0 ..], after the reserved byte *)
  bufsize : Z;          (* size_t *)
  rotation : Z          (* uint8_t *)
}.

Definition with_buffer (p : ssd1306_t) (b : list Z) : ssd1306_t :=
  mk_ssd1306 (width p) (height p) (pages p) (address p) (i2c_i p)
             (external_vcc p) b (bufsize p) (rotation p).

Definition with_rotation (p : ssd1306_t) (r : Z) : ssd1306_t :=
  mk_ssd1306 (width p) (height p) (pages p) (address p) (i2c_i p)
             (external_vcc p) (buffer p) (bufsize p) r.

(** Command bytes ([ssd1306_command_t]). *)
Module Cmd.
Definition SET_COMMAND_MODE : Z := 0x00.
Definition SET_CONTRAST : Z := 0x81.
Definition SET_ENTIRE_ON : Z := 0xA4.
Definition SET_NORM_INV : Z := 0xA6.
Definition SET_DISP : Z := 0xAE.
Definition SET_DISP_ON : Z := 0xAF.
Definition SET_MEM_ADDR : Z := 0x20.
Definition SET_DISP_START_LINE : Z := 0x40.
Definition SET_SEG_REMAP : Z := 0xA0.
Definition SET_MUX_RATIO : Z := 0xA8.
Definition SET_COM_OUT_DIR : Z := 0xC0.
Definition SET_DISP_OFFSET : Z := 0xD3.
Definition SET_COM_PIN_CFG : Z := 0xDA.
Definition SET_DISP_CLK_DIV : Z := 0xD5.
Definition SET_PRECHARGE : Z := 0xD9.
Definition SET_VCOM_DESEL : Z := 0xDB.
Definition SET_CHARGE_PUMP : Z := 0x8D.
End Cmd.

(** One bus transfer: the device address and the bytes sent. *)
Definition transfer : Type := (Z * list Z)%type.

(** [ssd1306_write]: the two bytes [{0x00, val}] sent to [p->address]; the
    result of the transfer is discarded by the source. *)
Definition ssd1306_write (p : ssd1306_t) (val : Z) : transfer :=
  (address p, [0x00; wrap8 val]).

(** ** Initialisation *)

(** [malloc n] is [None] for a failed allocation and otherwise the fresh
    block, whose contents are whatever the allocator left there. *)
Definition allocator : Type := Z -> option (list Z).

Definition init_cmds (p : ssd1306_t) (width_ height_ : Z) : list Z :=
  [ Cmd.SET_DISP;
    Cmd.SET_DISP_CLK_DIV; 0x80;
    Cmd.SET_MUX_RATIO; height_ - 1;
    Cmd.SET_DISP_OFFSET; 0x00;
    Cmd.SET_DISP_START_LINE;
    Cmd.SET_CHARGE_PUMP; (if external_vcc p then 0x10 else 0x14);
    Z.lor Cmd.SET_SEG_REMAP 0x01;
    Z.lor Cmd.SET_COM_OUT_DIR 0x08;
    Cmd.SET_COM_PIN_CFG; (if width_ >? 2 * height_ then 0x02 else 0x12);
    Cmd.SET_CONTRAST; 0xff;
    Cmd.SET_PRECHARGE; (if external_vcc p then 0x22 else 0xF1);
    Cmd.SET_VCOM_DESEL; 0x30;
    Cmd.SET_ENTIRE_ON;
    Cmd.SET_NORM_INV;
    Z.lor Cmd.SET_DISP 0x01;
    Cmd.SET_MEM_ADDR; 0x00 ].

(** [ssd1306_init].  [width_] and [height_] are the [uint16_t] parameters;
    the fields they are stored in are [uint8_t].  [rotation] and
    [external_vcc] are not assigned.  Returns the [bool] result, the display
    and the transfers made on the bus. *)
Definition ssd1306_init (p : ssd1306_t) (width_ height_ address_ : Z)
    (i2c_instance : Z) (malloc : allocator)
  : bool * ssd1306_t * list transfer :=
  let w8 := wrap8 width_ in
  let h8 := wrap8 height_ in
  let pg := wrap8 (height_ / 8) in
  let ad := wrap8 address_ in
  let bs := pg * w8 in
  match malloc (bs + 1) with
  | None =>
      (false,
       mk_ssd1306 w8 h8 pg ad i2c_instance (external_vcc p) [] 0 (rotation p),
       [])
  | Some block =>
      (* ++(p->buffer): the first byte of the block is the reserved one *)
      let p' := mk_ssd1306 w8 h8 pg ad i2c_instance (external_vcc p)
                           (drop 1 block) bs (rotation p) in
      (true, p', map (ssd1306_write p') (init_cmds p' width_ height_))
  end.

(** [ssd1306_set_rotation]; [rotation_] is a [uint8_t]. *)
Definition ssd1306_set_rotation (p : ssd1306_t) (rotation_ : Z) : ssd1306_t :=
  if rotation_ >? 3 then p else with_rotation p rotation_.

(** [ssd1306_clear]: [memset(p->buffer, 0, p->bufsize)]. *)
Definition ssd1306_clear (p : ssd1306_t) : option ssd1306_t :=
  if Z.of_nat (length (buffer p)) <? bufsize p then None
  else Some (with_buffer p (repeat 0 (Z.to_nat (bufsize p))
                              ++ drop (Z.to_nat (bufsize p)) (buffer p))).

(** ** Pixels *)

(** The [switch (p->rotation)] shared, text for text, by
    [ssd1306_clear_pixel] and [ssd1306_draw_pixel]: the pair
    [(buffer_x, buffer_y)], computed in [uint32_t].  There is no [default]
    case: for any other [rotation] the two variables are never written. *)
Definition buffer_xy (p : ssd1306_t) (x y : Z) : option (Z * Z) :=
  match rotation p with
  | 0 => Some (x, y)
  | 1 => Some (wrap32 (height p - 1 - y + width p / 2), x)
  | 2 => Some (wrap32 (width p - 1 - x), wrap32 (height p - 1 - y))
  | 3 => Some (y, wrap32 (height p - 1 - x))
  | _ => None
  end.

(** The index [buffer_x + p->width * (buffer_y >> 3)]. *)
Definition byte_index (p : ssd1306_t) (buffer_x buffer_y : Z) : Z :=
  wrap32 (buffer_x + width p * Z.shiftr buffer_y 3).

(** [p->buffer[idx] = f (p->buffer[idx])], stored back as a [uint8_t]. *)
Definition modify_byte (p : ssd1306_t) (idx : Z) (f : Z -> Z)
  : option ssd1306_t :=
  b ← read (buffer p) idx;
  Some (with_buffer p (<[Z.to_nat idx := wrap8 (f b)]> (buffer p))).

Definition set_bit (buffer_y : Z) (b : Z) : Z :=
  Z.lor b (Z.shiftl 0x1 (Z.land buffer_y 0x07)).

Definition clear_bit (buffer_y : Z) (b : Z) : Z :=
  Z.land b (Z.lnot (Z.shiftl 0x1 (Z.land buffer_y 0x07))).

Definition ssd1306_clear_pixel (p : ssd1306_t) (x y : Z) : option ssd1306_t :=
  '(buffer_x, buffer_y) ← buffer_xy p x y;
  if (buffer_x <? width p) && (buffer_y <? height p)
  then modify_byte p (byte_index p buffer_x buffer_y) (clear_bit buffer_y)
  else Some p.

Definition ssd1306_draw_pixel (p : ssd1306_t) (x y : Z) : option ssd1306_t :=
  '(buffer_x, buffer_y) ← buffer_xy p x y;
  if (buffer_x <? width p) && (buffer_y <? height p)
  then modify_byte p (byte_index p buffer_x buffer_y) (set_bit buffer_y)
  else Some p.

(** Observation used by the statements below (the driver has no read-back
    routine): the state of the bit that [ssd1306_draw_pixel p x y] writes.
    [None] when the coordinate is rejected or the byte does not exist. *)
Definition get_pixel (p : ssd1306_t) (x y : Z) : option bool :=
  '(buffer_x, buffer_y) ← buffer_xy p x y;
  if (buffer_x <? width p) && (buffer_y <? height p)
  then b ← read (buffer p) (byte_index p buffer_x buffer_y);
       Some (Z.testbit b (Z.land buffer_y 0x07))
  else None.

(** ** Loops *)

(** [n] iterations of [body], the counter starting at [i] and growing by
    one; an iteration without a result ends the run. *)
Fixpoint for_loop (n : nat) (i : Z) (body : Z -> ssd1306_t -> option ssd1306_t)
    (p : ssd1306_t) : option ssd1306_t :=
  match n with
  | O => Some p
  | S n' => p' ← body i p; for_loop n' (i + 1) body p'
  end.

(** [for (uint32_t i = 0; i < n; ++i) body]. *)
Definition for_lt (n : Z) (body : Z -> ssd1306_t -> option ssd1306_t)
    (p : ssd1306_t) : option ssd1306_t :=
  for_loop (Z.to_nat n) 0 body p.

(** [for (int32_t i = lo; i <= hi; ++i) body]: the increment that would
    leave the loop overflows when [hi] is [INT32_MAX]. *)
Definition for_le (lo hi : Z) (body : Z -> ssd1306_t -> option ssd1306_t)
    (p : ssd1306_t) : option ssd1306_t :=
  p' ← for_loop (Z.to_nat (hi - lo + 1)) lo body p;
  if (lo <=? hi) && (hi =? INT32_MAX) then None else Some p'.

(** ** Single-precision arithmetic (the [float] of [ssd1306_draw_line]) *)

Module F32.

Definition prec : Z := 24.
Definition emax : Z := 128.

(** [(float) n], round to nearest even. *)
Definition of_int (n : Z) : spec_float := binary_normalize prec emax n 0 false.
Definition div : spec_float -> spec_float -> spec_float := SFdiv prec emax.
Definition mul : spec_float -> spec_float -> spec_float := SFmul prec emax.
Definition add : spec_float -> spec_float -> spec_float := SFadd prec emax.

(** The integral part (rounding toward zero) of a finite number. *)
Definition trunc (f : spec_float) : option Z :=
  match f with
  | S754_zero _ => Some 0
  | S754_finite s m e =>
      let a := if 0 <=? e then Z.shiftl (Z.pos m) e
               else Z.shiftr (Z.pos m) (- e) in
      Some (if s then - a else a)
  | S754_infinity _ | S754_nan => None
  end.

(** [(uint32_t) f]: defined when the integral part fits. *)
Definition to_uint32 (f : spec_float) : option Z :=
  z ← trunc f;
  if (0 <=? z) && (z <? 2 ^ 32) then Some z else None.

End F32.

(** ** Lines *)

(** The four [int32_t] parameters of [ssd1306_draw_line] are read and
    written through pointers by [swap]; they are kept in a frame addressed
    by these names. *)
Inductive line_var : Type := X1 | Y1 | X2 | Y2.

Definition line_var_eqb (a b : line_var) : bool :=
  match a, b with
  | X1, X1 | Y1, Y1 | X2, X2 | Y2, Y2 => true
  | _, _ => false
  end.

Definition frame : Type := line_var -> Z.

Definition load (m : frame) (a : line_var) : Z := m a.

Definition store (m : frame) (a : line_var) (v : Z) : frame :=
  fun b => if line_var_eqb b a then v else m b.

Definition new_frame (x1 y1 x2 y2 : Z) : frame :=
  fun v => match v with X1 => x1 | Y1 => y1 | X2 => x2 | Y2 => y2 end.

(** [swap]:
<<
    int32_t *t=a;
    *a=*b;
    *b=*t;
>>
    [t] is a pointer: it names the same object as [a]. *)
Definition swap (a b : line_var) (m : frame) : frame :=
  let t := a in
  let m := store m a (load m b) in
  store m b (load m t).

Definition ssd1306_draw_line (p : ssd1306_t) (x1 y1 x2 y2 : Z)
  : option ssd1306_t :=
  let m := new_frame x1 y1 x2 y2 in
  let m := if load m X1 >? load m X2
           then swap Y1 Y2 (swap X1 X2 m) else m in
  if load m X1 =? load m X2 then
    let m := if load m Y1 >? load m Y2 then swap Y1 Y2 m else m in
    for_le (load m Y1) (load m Y2)
      (fun i q => ssd1306_draw_pixel q (wrap32 (load m X1)) (wrap32 i)) p
  else
    dy ← int32_checked (load m Y2 - load m Y1);
    dx ← int32_checked (load m X2 - load m X1);
    let slope := F32.div (F32.of_int dy) (F32.of_int dx) in
    for_le (load m X1) (load m X2)
      (fun i q =>
         d ← int32_checked (i - load m X1);
         let y := F32.add (F32.mul slope (F32.of_int d))
                          (F32.of_int (load m Y1)) in
         y' ← F32.to_uint32 y;
         ssd1306_draw_pixel q (wrap32 i) y') p.

(** ** Squares *)


Definition ssd1306_draw_square (p : ssd1306_t) (x y width_ height_ : Z)
  : option ssd1306_t :=
  for_lt width_ (fun i =>
    for_lt height_ (fun j q =>
      ssd1306_draw_pixel q (wrap32 (x + i)) (wrap32 (y + j)))) p.

(** The [uint32_t] arguments are converted to the [int32_t] parameters of
    [ssd1306_draw_line]. *)
Definition ssd1306_draw_empty_square (p : ssd1306_t) (x y width_ height_ : Z)
  : option ssd1306_t :=
  let i32 := to_int32 in
  p1 ← ssd1306_draw_line p (i32 x) (i32 y) (i32 (x + width_)) (i32 y);
  p2 ← ssd1306_draw_line p1 (i32 x) (i32 (y + height_))
                            (i32 (x + width_)) (i32 (y + height_));
  p3 ← ssd1306_draw_line p2 (i32 x) (i32 y) (i32 x) (i32 (y + height_));
  ssd1306_draw_line p3 (i32 (x + width_)) (i32 y)
                       (i32 (x + width_)) (i32 (y + height_)).

(** ** Circles *)

(** The test [(i * i + j * j) <= (r * r)], in [uint32_t]. *)
Definition in_circle (i j r : Z) : bool :=
  wrap32 (i * i + j * j) <=? wrap32 (r * r).

(** The four calls of the inner loop body, in the order of the source:
    [(x + i, y + j)], [(x + i, y - j)], [(x - i, y + j)], [(x - i, y - j)]. *)
Definition mirrors (x y i j : Z) : list (Z * Z) :=
  [ (wrap32 (x + i), wrap32 (y + j));
    (wrap32 (x + i), wrap32 (y - j));
    (wrap32 (x - i), wrap32 (y + j));
    (wrap32 (x - i), wrap32 (y - j)) ].

Definition circle_body (pixel : ssd1306_t -> Z -> Z -> option ssd1306_t)
    (x y r i j : Z) (q : ssd1306_t) : option ssd1306_t :=
  if in_circle i j r then
    q1 ← pixel q (wrap32 (x + i)) (wrap32 (y + j));
    q2 ← pixel q1 (wrap32 (x + i)) (wrap32 (y - j));
    q3 ← pixel q2 (wrap32 (x - i)) (wrap32 (y + j));
    pixel q3 (wrap32 (x - i)) (wrap32 (y - j))
  else Some q.


Definition ssd1306_draw_circle (p : ssd1306_t) (x y r : Z)
  : option ssd1306_t :=
  for_lt r (fun i => for_lt r (fun j => circle_body ssd1306_draw_pixel x y r i j)) p.

(** ** Glyphs *)

(** The loop [for (int8_t j = 0; j < 8; ++j, line >>= 1)] over one font
    byte. *)
Fixpoint glyph_bits (n : nat) (j line : Z) (x y scale w lp : Z)
    (p : ssd1306_t) : option ssd1306_t :=
  match n with
  | O => Some p
  | S n' =>
      p' ← (if Z.land line 1 =? 0 then Some p
            else ssd1306_draw_square p
                   (wrap32 (x + w * scale))
                   (wrap32 (y + (Z.shiftl lp 3 + j) * scale))
                   scale scale);
      glyph_bits n' (j + 1) (Z.shiftr line 1) x y scale w lp p'
  end.

(** [font] is the byte array; [c] the character code, [0 <= c < 256]. *)
Definition ssd1306_draw_char_with_font (p : ssd1306_t) (x y scale : Z)
    (font : list Z) (c : Z) : option ssd1306_t :=
  f3 ← read font 3;
  if c <? f3 then Some p else
  f4 ← read font 4;
  if c >? f4 then Some p else
  f0 ← read font 0;
  let parts_per_line :=
    Z.shiftr f0 3 + (if Z.land f0 7 >? 0 then 1 else 0) in
  f1 ← read font 1;
  for_lt f1 (fun w q =>
    let pp := wrap32 ((c - f3) * f1 * parts_per_line
                      + w * parts_per_line + 5) in
    for_lt parts_per_line (fun lp q' =>
      line ← read font (wrap32 (pp + lp));
      glyph_bits 8 0 line x y scale w lp q') q) p.

(** The loop of [ssd1306_draw_string_with_font]; [x_n] is the [int32_t]
    cursor and [s] the characters at and after the read position.  The end
    of the list is the terminating NUL. *)
Fixpoint draw_string_loop (s : list Z) (x_n : Z) (y scale : Z)
    (font : list Z) (p : ssd1306_t) : option ssd1306_t :=
  match s with
  | [] => Some p
  | c :: s' =>
      if c =? 0 then Some p else
      p' ← ssd1306_draw_char_with_font p (wrap32 x_n) y scale font c;
      f1 ← read font 1;
      f2 ← read font 2;
      draw_string_loop s'
        (to_int32 (wrap32 x_n + wrap32 ((f1 + f2) * scale)))
        y scale font p'
  end.

Definition ssd1306_draw_string_with_font (p : ssd1306_t) (x y scale : Z)
    (font : list Z) (s : list Z) : option ssd1306_t :=
  draw_string_loop s (to_int32 x) y scale font p.

(** ** Monochrome bitmaps *)

(** [ssd1306_bmp_get_val]: little-endian field of [size] bytes, returned as
    [uint32_t]; any other [size] is declared unreachable. *)
Definition ssd1306_bmp_get_val (data : list Z) (offset : Z) (size : Z)
  : option Z :=
  match size with
  | 1 => read data offset
  | 2 =>
      b0 ← read data offset;
      b1 ← read data (offset + 1);
      Some (wrap32 (Z.lor b0 (Z.shiftl b1 8)))
  | 4 =>
      b0 ← read data offset;
      b1 ← read data (offset + 1);
      b2 ← read data (offset + 2);
      b3 ← read data (offset + 3);
      Some (wrap32 (Z.lor (Z.lor (Z.lor b0 (Z.shiftl b1 8)) (Z.shiftl b2 16))
                          (Z.shiftl b3 24)))
  | _ => None
  end.

(** One entry of the colour table: [true] when its three bytes are zero. *)
Definition bmp_entry_is_black (data : list Z) (table_start i : Z)
  : option bool :=
  c0 ← read data (table_start + i * 4);
  c1 ← read data (table_start + i * 4 + 1);
  c2 ← read data (table_start + i * 4 + 2);
  Some (Z.lor (Z.lor (Z.shiftl c0 16) (Z.shiftl c1 8)) c2 =? 0).

(** The loop [for (uint8_t i = 0; i < 2; ++i)] that picks [color_val]. *)
Definition bmp_color_val (data : list Z) (table_start : Z) : option Z :=
  k0 ← bmp_entry_is_black data table_start 0;
  if k0 : bool then Some 0 else
  k1 ← bmp_entry_is_black data table_start 1;
  if k1 : bool then Some 1 else Some 0.

(** The inner loop over the columns of one row; [img_data] is the offset of
    the row in [data]. *)
Definition bmp_row (data : list Z) (img_data : Z) (biWidth color_val : Z)
    (x_offset y_offset y : Z) (p : ssd1306_t) : option ssd1306_t :=
  for_lt biWidth (fun x q =>
    b ← read data (img_data + Z.shiftr x 3);
    if Z.land (Z.shiftr b (7 - Z.land x 7)) 1 =? color_val
    then ssd1306_draw_pixel q (wrap32 (x_offset + x)) (wrap32 (y_offset + y))
    else Some q) p.

(** The loop over the rows,
    [for (uint32_t y = ...; y != (uint32_t) border; y += step)], with [n]
    the number of iterations left before [y] meets [border]. *)
Fixpoint bmp_rows (n : nat) (data : list Z) (img_data bytes_per_line : Z)
    (biWidth color_val x_offset y_offset y step : Z) (p : ssd1306_t)
  : option ssd1306_t :=
  match n with
  | O => Some p
  | S n' =>
      p' ← bmp_row data img_data biWidth color_val x_offset y_offset y p;
      bmp_rows n' data (img_data + bytes_per_line) bytes_per_line
               biWidth color_val x_offset y_offset (wrap32 (y + step)) step p'
  end.

(** [size] is the [long] argument; [data] the array behind the pointer. *)
Definition ssd1306_bmp_show_image_with_offset (p : ssd1306_t)
    (data : list Z) (size : Z) (x_offset y_offset : Z) : option ssd1306_t :=
  if size <? 54 then Some p else
  bfOffBits ← ssd1306_bmp_get_val data 10 4;
  biSize ← ssd1306_bmp_get_val data 14 4;
  biWidth ← ssd1306_bmp_get_val data 18 4;
  biHeight ← to_int32 <$> ssd1306_bmp_get_val data 22 4;
  biBitCount ← wrap16 <$> ssd1306_bmp_get_val data 28 2;
  biCompression ← ssd1306_bmp_get_val data 30 4;
  if negb (biBitCount =? 1) then Some p else
  if negb (biCompression =? 0) then Some p else
  let table_start := to_int32 (14 + biSize) in
  color_val ← bmp_color_val data table_start;
  let bytes_per_line :=
    biWidth / 8 + (if Z.land biWidth 7 =? 0 then 0 else 1) in
  let bytes_per_line :=
    if Z.land bytes_per_line 3 =? 0 then bytes_per_line
    else wrap32 (Z.lxor bytes_per_line (Z.land bytes_per_line 3) + 4) in
  let img_data := bfOffBits in
  let step := if biHeight >? 0 then -1 else 1 in
  border ← (if biHeight >? 0 then Some (-1) else int32_checked (- biHeight));
  let y0 := if biHeight >? 0 then wrap32 (biHeight - 1) else 0 in
  (* y runs from y0 by step until it equals (uint32_t) border *)
  let n := if biHeight >? 0 then biHeight else wrap32 border in
  bmp_rows (Z.to_nat n) data img_data bytes_per_line biWidth color_val
           x_offset y_offset y0 step p.

Definition ssd1306_bmp_show_image (p : ssd1306_t) (data : list Z) (size : Z)
  : option ssd1306_t :=
  ssd1306_bmp_show_image_with_offset p data size 0 0.

(** ** Displays used in the examples *)

(** An allocator that always succeeds and hands out zeroed blocks. *)
Definition malloc_zero : allocator := fun n => Some (repeat 0 (Z.to_nat n)).

(** A zero-initialised [ssd1306_t], as a [static] object is before
    [ssd1306_init]. *)
Definition blank : ssd1306_t := mk_ssd1306 0 0 0 0 0 false [] 0 0.

(** The display after [ssd1306_init (w, h, 0x3C, i2c)], [ssd1306_clear] and
    [ssd1306_set_rotation rot]. *)
Definition cleared (w h rot : Z) : option ssd1306_t :=
  let '(_, p, _) := ssd1306_init blank w h 0x3C 0 malloc_zero in
  p' ← ssd1306_clear p;
  Some (ssd1306_set_rotation p' rot).

Definition oled_128x64 : ssd1306_t := default blank (cleared 128 64 0).
Definition oled_128x32_rot1 : ssd1306_t := default blank (cleared 128 32 1).

(** The pixels of [p] that are set, as [(buffer_x, buffer_y)] pairs, in
    page-major order of the buffer. *)
Definition lit_pixels (p : ssd1306_t) : list (Z * Z) :=
  flat_map (fun kb : nat * Z =>
    flat_map (fun bit : Z =>
      if Z.testbit (snd kb) bit
      then [(Z.of_nat (fst kb) mod width p,
             8 * (Z.of_nat (fst kb) / width p) + bit)]
      else [])
      [0; 1; 2; 3; 4; 5; 6; 7])
    (imap (fun (k : nat) (b : Z) => (k, b)) (buffer p)).

(** [oled_128x64] with the pixel [(0, 0)] already set. *)
Definition oled_lit : ssd1306_t :=
  default blank (ssd1306_draw_pixel oled_128x64 0 0).

(** ** Strings, as the specification words them *)

(** The characters of [s] in front of its terminating NUL. *)
Fixpoint c_string (s : list Z) : list Z :=
  match s with
  | [] => []
  | c :: s' => if c =? 0 then [] else c :: c_string s'
  end.

(** Character number [n], [n + 1], ... of a string drawn one after the
    other, character number [k] at the horizontal position
    [x + k * advance] (in [uint32_t]), whatever the characters are. *)
Fixpoint draw_chars_from (n : nat) (cs : list Z) (x y scale advance : Z)
    (font : list Z) (p : ssd1306_t) : option ssd1306_t :=
  match cs with
  | [] => Some p
  | c :: cs' =>
      p' ← ssd1306_draw_char_with_font p (wrap32 (x + Z.of_nat n * advance))
                                       y scale font c;
      draw_chars_from (S n) cs' x y scale advance font p'
  end.

(** A font of one glyph, ['A'], 8 rows by 2 columns, spacing 1: a full
    first column and a single top pixel in the second. *)
Definition font_A : list Z := [8; 2; 1; 65; 65; 0xFF; 0x01].

(** ** Smallest monochrome bitmap: 1x1, header size 40, one data byte *)
Definition bmp_1x1 (depth compression bits : Z) : list Z :=
  [0x42; 0x4D; 66; 0; 0; 0; 0; 0; 0; 0; 62; 0; 0; 0]        (* file header *)
  ++ [40; 0; 0; 0; 1; 0; 0; 0; 1; 0; 0; 0; 1; 0; depth; 0;
      compression; 0; 0; 0; 4; 0; 0; 0; 0; 0; 0; 0; 0; 0; 0; 0;
      0; 0; 0; 0; 0; 0; 0; 0]                               (* info header *)
  ++ [0; 0; 0; 0; 255; 255; 255; 0]                         (* colour table *)
  ++ [bits; 0; 0; 0].                                       (* one row *)

(** A sequence of calls of one pixel routine. *)
Fixpoint pixels (pixel : ssd1306_t -> Z -> Z -> option ssd1306_t)
    (l : list (Z * Z)) (q : ssd1306_t) : option ssd1306_t :=
  match l with
  | [] => Some q
  | (u, v) :: l' => q' ← pixel q u v; pixels pixel l' q'
  end.

(** ** Power, contrast and orientation commands *)

Definition ssd1306_poweroff (p : ssd1306_t) : list transfer :=
  [ssd1306_write p (Z.lor Cmd.SET_DISP 0x00)].

Definition ssd1306_poweron (p : ssd1306_t) : list transfer :=
  [ssd1306_write p (Z.lor Cmd.SET_DISP 0x01)].

Definition ssd1306_contrast (p : ssd1306_t) (val : Z) : list transfer :=
  [ssd1306_write p Cmd.SET_CONTRAST; ssd1306_write p val].

Definition ssd1306_invert (p : ssd1306_t) (inv : Z) : list transfer :=
  [ssd1306_write p (Z.lor Cmd.SET_NORM_INV (Z.land inv 1))].

(** The operator [!] of C. *)
Definition c_not (v : Z) : Z := if v =? 0 then 1 else 0.

Definition ssd1306_vflip (p : ssd1306_t) (val : Z) : list transfer :=
  [ssd1306_write p (Z.lor Cmd.SET_COM_OUT_DIR (Z.shiftl (c_not val) 3))].

Definition ssd1306_hflip (p : ssd1306_t) (val : Z) : list transfer :=
  [ssd1306_write p (Z.lor Cmd.SET_SEG_REMAP (Z.land (c_not val) 1))].

Definition ssd1306_rotate (p : ssd1306_t) (val : Z) : list transfer :=
  ssd1306_vflip p val ++ ssd1306_hflip p val.

Definition ssd1306_reset (p : ssd1306_t) : list transfer :=
  map (ssd1306_write p)
    [ Cmd.SET_COMMAND_MODE; Cmd.SET_DISP; Cmd.SET_ENTIRE_ON;
      Cmd.SET_DISP_CLK_DIV; 0x80; Cmd.SET_CHARGE_PUMP; 0x14;
      Cmd.SET_NORM_INV; Cmd.SET_DISP_OFFSET; 0x00;
      Cmd.SET_DISP_START_LINE; Cmd.SET_DISP_ON ].

(** ** Transfer of the frame *)



(** ** Vocabulary of the statements on drawing *)

(** The display invariant: fields within their C type, whole pages, a buffer
    of [bufsize = pages * width] bytes, a rotation the [switch] handles. *)
Record geometry_ok (p : ssd1306_t) : Prop := mk_geometry_ok {
  geo_width : is_uint8 (width p);
  geo_height : is_uint8 (height p);
  geo_whole_pages : height p mod 8 = 0;
  geo_pages : pages p = height p / 8;
  geo_bufsize : bufsize p = pages p * width p;
  geo_buffer : Z.of_nat (length (buffer p)) = bufsize p;
  geo_rotation : 0 <= rotation p <= 3
}.

(** [p'] differs from [p] in the contents of the buffer at most. *)
Definition same_fields (p p' : ssd1306_t) : Prop :=
  p' = with_buffer p (buffer p') /\ length (buffer p') = length (buffer p).

(** From [p] to [p'] the pixels of [S] have been set and nothing else has
    changed: a pixel of [p'] is set exactly when it was set in [p] or is in
    [S]; coordinates that name no pixel of [p] name none of [p']. *)
Definition paints (S : Z -> Z -> Prop) (p p' : ssd1306_t) : Prop :=
  same_fields p p' /\
  forall a b, is_uint32 a -> is_uint32 b ->
    match get_pixel p a b with
    | None => get_pixel p' a b = None
    | Some old =>
        exists new, get_pixel p' a b = Some new /\
                    (new = true <-> old = true \/ S a b)
    end.

(** From [p] to [p'] the pixels of [S] have been unset and nothing else has
    changed. *)
Definition erases (S : Z -> Z -> Prop) (p p' : ssd1306_t) : Prop :=
  same_fields p p' /\
  forall a b, is_uint32 a -> is_uint32 b ->
    match get_pixel p a b with
    | None => get_pixel p' a b = None
    | Some old =>
        exists new, get_pixel p' a b = Some new /\
                    (new = true <-> old = true /\ ~ S a b)
    end.

(** The values a loop counter takes: [n] of them from [i] upwards. *)
Fixpoint counters (n : nat) (i : Z) : list Z :=
  match n with
  | O => []
  | S n' => i :: counters n' (i + 1)
  end.

(** The coordinates [ssd1306_draw_square] and [ssd1306_clear_square] pass to
    the pixel routine, in the order of the two loops. *)
Definition square_cells (x y width_ height_ : Z) : list (Z * Z) :=
  flat_map (fun i =>
    flat_map (fun j => [(wrap32 (x + i), wrap32 (y + j))])
             (counters (Z.to_nat height_) 0))
    (counters (Z.to_nat width_) 0).

(** The coordinates [ssd1306_draw_circle] and [ssd1306_clear_circle] pass to
    the pixel routine. *)
Definition circle_cells (x y r : Z) : list (Z * Z) :=
  flat_map (fun i =>
    flat_map (fun j => if in_circle i j r then mirrors x y i j else [])
             (counters (Z.to_nat r) 0))
    (counters (Z.to_nat r) 0).

(** Every coordinate of the list is a [uint32_t] value. *)
Definition uint32_cells (l : list (Z * Z)) : Prop :=
  List.Forall (fun c => is_uint32 (fst c) /\ is_uint32 (snd c)) l.

(** ** Glyphs, as lists of cells *)

(** The number of bytes of one glyph column,
    [(font[0] >> 3) + ((font[0] & 7) > 0)]. *)
Definition parts_per_line (f0 : Z) : Z :=
  Z.shiftr f0 3 + (if Z.land f0 7 >? 0 then 1 else 0).

(** The cells drawn for one font byte [line]: a square of side [scale] for
    each bit set, bit [j] at row [(lp << 3) + j] of column [w]. *)
Definition byte_cells (line x y scale w lp : Z) : list (Z * Z) :=
  flat_map (fun j =>
    if Z.testbit line j
    then square_cells (wrap32 (x + w * scale))
                      (wrap32 (y + (Z.shiftl lp 3 + j) * scale)) scale scale
    else [])
    (counters 8 0).

(** The cells drawn for the glyph of [c]; [f0], [f1], [f3] are the bytes 0,
    1 and 3 of the font. *)
Definition glyph_cells (font : list Z) (x y scale c f0 f1 f3 : Z)
  : list (Z * Z) :=
  flat_map (fun w =>
    let pp := wrap32 ((c - f3) * f1 * parts_per_line f0
                      + w * parts_per_line f0 + 5) in
    flat_map (fun lp =>
      byte_cells (default 0 (read font (wrap32 (pp + lp)))) x y scale w lp)
      (counters (Z.to_nat (parts_per_line f0)) 0))
    (counters (Z.to_nat f1) 0).

(** ** Bitmaps, as lists of cells *)

(** The row stride of [ssd1306_bmp_show_image_with_offset]: the bytes of
    [biWidth] bits, rounded up to a multiple of four. *)
Definition bmp_bytes_per_line (biWidth : Z) : Z :=
  let bytes_per_line :=
    biWidth / 8 + (if Z.land biWidth 7 =? 0 then 0 else 1) in
  if Z.land bytes_per_line 3 =? 0 then bytes_per_line
  else wrap32 (Z.lxor bytes_per_line (Z.land bytes_per_line 3) + 4).

(** The cells drawn for the image row stored at offset [img_data] and shown
    at the ordinate [y]. *)
Definition bmp_row_cells (data : list Z) (img_data biWidth color_val : Z)
    (x_offset y_offset y : Z) : list (Z * Z) :=
  flat_map (fun x =>
    if Z.land (Z.shiftr (default 0 (read data (img_data + Z.shiftr x 3)))
                        (7 - Z.land x 7)) 1 =? color_val
    then [(wrap32 (x_offset + x), wrap32 (y_offset + y))]
    else [])
    (counters (Z.to_nat biWidth) 0).

(** [(a, b)] is a pixel of the glyph of [c] drawn at [(x, y)]: bit [j] of
    byte [lp] of column [w] is set in the font, and [(a, b)] lies in the
    square of side [scale] that stands for that bit. *)
Definition glyph_pixel (font : list Z) (f0 f1 f3 : Z) (x y scale c : Z)
    (a b : Z) : Prop :=
  exists w lp j line dx dy,
    0 <= w < f1 /\ 0 <= lp < parts_per_line f0 /\ 0 <= j < 8 /\
    read font ((c - f3) * f1 * parts_per_line f0
               + w * parts_per_line f0 + 5 + lp) = Some line /\
    Z.testbit line j = true /\
    0 <= dx < scale /\ 0 <= dy < scale /\
    a = wrap32 (x + w * scale + dx) /\
    b = wrap32 (y + (8 * lp + j) * scale + dy).

(** [(a, b)] is a pixel of the image: bit [7 - (x & 7)] of byte [x >> 3] of
    the row stored [r]-th equals [color_val]; rows are stored bottom-up when
    [biHeight] is positive and top-down otherwise. *)
Definition bmp_pixel (data : list Z) (bfOffBits biWidth biHeight color_val : Z)
    (x_offset y_offset : Z) (a b : Z) : Prop :=
  exists r x byte,
    0 <= r < Z.abs biHeight /\ 0 <= x < biWidth /\
    read data (bfOffBits + r * bmp_bytes_per_line biWidth + Z.shiftr x 3)
      = Some byte /\
    Z.land (Z.shiftr byte (7 - Z.land x 7)) 1 = color_val /\
    a = wrap32 (x_offset + x) /\
    b = wrap32 (y_offset + (if biHeight >? 0 then biHeight - 1 - r else r)).

(** An allocator that refuses negative sizes and otherwise hands out a
    zeroed block of the size asked for. *)
Definition malloc_sized : allocator :=
  fun n => if n <? 0 then None else Some (repeat 0 (Z.to_nat n)).

(** * Properties *)

(** ** Machine integers *)

Lemma wrap32_range z : 0 <= wrap32 z < 2 ^ 32.
Proof. unfold wrap32. apply Z.mod_pos_bound. lia. Qed.

Lemma wrap32_small z : 0 <= z < 2 ^ 32 -> wrap32 z = z.
Proof. intros H. unfold wrap32. apply Z.mod_small. exact H. Qed.

Lemma wrap32_le z : 0 <= z -> wrap32 z <= z.
Proof. intros H. unfold wrap32. apply Z.mod_le; lia. Qed.

Lemma wrap32_borrow z : - 2 ^ 32 <= z < 0 -> wrap32 z = z + 2 ^ 32.
Proof.
  intros H. unfold wrap32.
  rewrite <- (Z.mod_add z 1 (2 ^ 32)) by lia.
  apply Z.mod_small. lia.
Qed.

Lemma wrap32_idem z : wrap32 (wrap32 z) = wrap32 z.
Proof. unfold wrap32. apply Z.mod_mod. lia. Qed.

Lemma wrap32_to_int32 z : wrap32 (to_int32 z) = wrap32 z.
Proof.
  unfold to_int32. destruct (wrap32 z <? 2 ^ 31).
  - apply wrap32_idem.
  - unfold wrap32. rewrite Zminus_mod, Z.mod_same, Z.sub_0_r by lia.
    rewrite !Z.mod_mod by lia. reflexivity.
Qed.

Lemma wrap32_add_l a b : wrap32 (wrap32 a + b) = wrap32 (a + b).
Proof. unfold wrap32. apply Zplus_mod_idemp_l. Qed.

Lemma wrap32_add_r a b : wrap32 (a + wrap32 b) = wrap32 (a + b).
Proof. unfold wrap32. apply Zplus_mod_idemp_r. Qed.

Lemma wrap8_range z : 0 <= wrap8 z < 2 ^ 8.
Proof. unfold wrap8. apply Z.mod_pos_bound. lia. Qed.

Lemma wrap8_small z : 0 <= z < 2 ^ 8 -> wrap8 z = z.
Proof. intros H. unfold wrap8. apply Z.mod_small. exact H. Qed.

(** ** Rotation setter *)

(** C9.  A rotation argument above 3 leaves the display as it is; an argument
    in 0..3 is stored in the [rotation] field and every other field keeps
    its value. *)
Theorem set_rotation_guard (p : ssd1306_t) (r : Z) :
  (3 < r -> ssd1306_set_rotation p r = p) /\
  (0 <= r <= 3 ->
     rotation (ssd1306_set_rotation p r) = r /\
     width (ssd1306_set_rotation p r) = width p /\
     height (ssd1306_set_rotation p r) = height p /\
     pages (ssd1306_set_rotation p r) = pages p /\
     address (ssd1306_set_rotation p r) = address p /\
     i2c_i (ssd1306_set_rotation p r) = i2c_i p /\
     external_vcc (ssd1306_set_rotation p r) = external_vcc p /\
     buffer (ssd1306_set_rotation p r) = buffer p /\
     bufsize (ssd1306_set_rotation p r) = bufsize p).
Proof.
  unfold ssd1306_set_rotation. split; intros H.
  - destruct (Z.gtb_spec r 3); [reflexivity | lia].
  - destruct (Z.gtb_spec r 3); [lia |]. cbn. tauto.
Qed.

Lemma set_rotation_guard_witness :
  ssd1306_set_rotation oled_128x64 7 = oled_128x64 /\
  rotation (ssd1306_set_rotation oled_128x64 2) = 2.
Proof.
  split.
  - apply (proj1 (set_rotation_guard oled_128x64 7)). lia.
  - apply (proj2 (set_rotation_guard oled_128x64 2)). lia.
Defined.

(** ** Initialisation *)

Lemma init_fields p w h a i malloc p' tr :
  ssd1306_init p w h a i malloc = (true, p', tr) ->
  width p' = wrap8 w /\ height p' = wrap8 h /\ pages p' = wrap8 (h / 8) /\
  bufsize p' = wrap8 (h / 8) * wrap8 w /\ rotation p' = rotation p.
Proof.
  unfold ssd1306_init. destruct (malloc _) as [block|]; intros H.
  - injection H as <- _. cbn. tauto.
  - discriminate H.
Qed.

(** C5, as amended.  After a successful [ssd1306_init] the stored fields
    satisfy [bufsize = pages * width], where the stored width is the argument
    modulo 256 and the stored page count is [height / 8] modulo 256; when the
    width argument is at most 255 and the height argument at most 2047 this
    is [(height / 8) * width] of the arguments. *)
Theorem init_bufsize (p : ssd1306_t) (w h a i : Z) (malloc : allocator)
    (p' : ssd1306_t) (tr : list transfer) :
  0 < w < 2 ^ 16 -> 0 < h < 2 ^ 16 -> h mod 8 = 0 ->
  ssd1306_init p w h a i malloc = (true, p', tr) ->
  bufsize p' = pages p' * width p' /\
  width p' = w mod 256 /\
  pages p' = (h / 8) mod 256 /\
  (w <= 255 -> h <= 2047 -> pages p' = h / 8 /\ bufsize p' = (h / 8) * w).
Proof.
  intros Hw Hh _ Hinit.
  destruct (init_fields _ _ _ _ _ _ _ _ Hinit) as (Ew & _ & Ep & Eb & _).
  rewrite Ew, Ep, Eb. unfold wrap8. change (2 ^ 8) with 256.
  repeat split; try reflexivity.
  - rewrite Z.mod_small; [reflexivity|].
    split; [apply Z.div_pos; lia | apply Z.div_lt_upper_bound; lia].
  - rewrite (Z.mod_small w) by lia. rewrite Z.mod_small; [reflexivity|].
    split; [apply Z.div_pos; lia | apply Z.div_lt_upper_bound; lia].
Qed.

Lemma init_bufsize_witness :
  bufsize oled_128x64 = pages oled_128x64 * width oled_128x64 /\
  bufsize oled_128x64 = (64 / 8) * 128.
Proof.
  destruct (init_bufsize blank 128 64 0x3C 0 malloc_zero oled_128x64
              (snd (ssd1306_init blank 128 64 0x3C 0 malloc_zero)))
    as (H1 & _ & _ & H2).
  - lia.
  - lia.
  - reflexivity.
  - vm_compute. reflexivity.
  - split; [exact H1 | apply H2; lia].
Defined.

(** C5, as worded, fails: for the arguments (300, 2312) the buffer
    size is 1452, which is neither [(2312 / 8) * 300] nor built from a page
    count equal to [height / 8], be it the argument or the stored field. *)
Lemma init_bufsize_counterexample :
  let '(ok, p', _) := ssd1306_init blank 300 2312 0x3C 0 malloc_zero in
  ok = true /\ 2312 mod 8 = 0 /\
  bufsize p' = 1452 /\ bufsize p' <> (2312 / 8) * 300 /\
  pages p' <> 2312 / 8 /\ pages p' <> height p' / 8.
Proof. vm_compute. repeat split; discriminate. Qed.
(** ** Pixels *)

Lemma buffer_xy_is_Some p x y :
  0 <= rotation p <= 3 -> exists bx by', buffer_xy p x y = Some (bx, by').
Proof.
  intros H. unfold buffer_xy.
  assert (rotation p = 0 \/ rotation p = 1 \/ rotation p = 2 \/ rotation p = 3)
    as [E|[E|[E|E]]] by lia; rewrite E; eauto.
Qed.

Lemma buffer_xy_nonneg p x y bx by' :
  is_uint32 x -> is_uint32 y -> buffer_xy p x y = Some (bx, by') ->
  0 <= bx /\ 0 <= by'.
Proof.
  unfold is_uint32, buffer_xy. intros Hx Hy H.
  destruct (rotation p) as [|[r|r|]|]; try discriminate H;
    try (destruct r; discriminate H);
    try (destruct r as [r|r|]; try discriminate H);
    inversion H; subst;
    repeat match goal with
           | |- context [wrap32 ?z] => pose proof (wrap32_range z); generalize dependent (wrap32 z); intros
           end; lia.
Qed.

Lemma byte_index_bound p bx by' :
  height p mod 8 = 0 -> pages p = height p / 8 ->
  bufsize p = pages p * width p ->
  0 <= bx < width p -> 0 <= by' < height p ->
  0 <= byte_index p bx by' < bufsize p.
Proof.
  intros Hm Hp Hb Hx Hy. unfold byte_index.
  rewrite Z.shiftr_div_pow2 by lia. change (2 ^ 3) with 8.
  assert (0 <= by' / 8 < pages p) as Hq.
  { rewrite Hp. split; [apply Z.div_pos; lia |].
    apply Z.div_lt_upper_bound; [lia |].
    pose proof (Z.div_mod (height p) 8). lia. }
  assert (0 <= bx + width p * (by' / 8) < bufsize p) as Hi by nia.
  pose proof (wrap32_range (bx + width p * (by' / 8))).
  pose proof (wrap32_le (bx + width p * (by' / 8))). lia.
Qed.

Lemma read_is_Some (a : list Z) i :
  0 <= i < Z.of_nat (length a) -> is_Some (read a i).
Proof.
  intros H. unfold read. destruct (Z.ltb_spec i 0); [lia |].
  apply lookup_lt_is_Some. lia.
Qed.

Lemma modify_byte_is_Some p idx f :
  0 <= idx < Z.of_nat (length (buffer p)) -> is_Some (modify_byte p idx f).
Proof.
  intros H. unfold modify_byte.
  destruct (read_is_Some (buffer p) idx H) as [b ->]. cbn. eauto.
Qed.

(** C10.  On a display whose height is a multiple of 8, whose page count is
    [height / 8] and whose buffer holds [bufsize = pages * width] bytes, for
    every rotation in 0..3 and every [(x, y)]: when the bounds check
    [buffer_x < width && buffer_y < height] passes, the byte index
    [buffer_x + width * (buffer_y >> 3)] is below [bufsize]; hence neither
    pixel routine ever leaves the buffer. *)
Theorem pixel_access_in_range (p : ssd1306_t) (x y : Z) :
  height p mod 8 = 0 -> pages p = height p / 8 ->
  bufsize p = pages p * width p ->
  Z.of_nat (length (buffer p)) = bufsize p ->
  0 <= rotation p <= 3 -> is_uint32 x -> is_uint32 y ->
  (forall bx by', buffer_xy p x y = Some (bx, by') ->
     bx < width p -> by' < height p ->
     0 <= byte_index p bx by' < bufsize p) /\
  is_Some (ssd1306_draw_pixel p x y) /\
  is_Some (ssd1306_clear_pixel p x y).
Proof.
  intros Hm Hp Hb Hl Hr Hx Hy.
  assert (forall bx by', buffer_xy p x y = Some (bx, by') ->
            bx < width p -> by' < height p ->
            0 <= byte_index p bx by' < bufsize p) as Hidx.
  { intros bx by' E Hbx Hby.
    destruct (buffer_xy_nonneg _ _ _ _ _ Hx Hy E).
    apply byte_index_bound; auto; lia. }
  split; [exact Hidx |].
  destruct (buffer_xy_is_Some p x y Hr) as (bx & by' & E).
  unfold ssd1306_draw_pixel, ssd1306_clear_pixel. rewrite E. cbn.
  destruct (Z.ltb_spec bx (width p)), (Z.ltb_spec by' (height p)); cbn;
    try (split; eauto; fail).
  split; apply modify_byte_is_Some; rewrite Hl; apply (Hidx bx by'); auto.
Qed.

Lemma oled_128x64_fields :
  width oled_128x64 = 128 /\ height oled_128x64 = 64 /\
  pages oled_128x64 = 8 /\ bufsize oled_128x64 = 1024 /\
  rotation oled_128x64 = 0 /\ length (buffer oled_128x64) = 1024%nat.
Proof. vm_compute. tauto. Qed.

Lemma pixel_access_in_range_witness :
  0 <= byte_index oled_128x64 5 9 < bufsize oled_128x64 /\
  is_Some (ssd1306_draw_pixel oled_128x64 5 9) /\
  is_Some (ssd1306_clear_pixel oled_128x64 5 9).
Proof.
  destruct oled_128x64_fields as (Ew & Eh & Ep & Eb & Er & El).
  destruct (pixel_access_in_range oled_128x64 5 9) as (H1 & H2 & H3).
  - rewrite Eh. reflexivity.
  - rewrite Ep, Eh. reflexivity.
  - rewrite Eb, Ep, Ew. reflexivity.
  - rewrite El, Eb. reflexivity.
  - rewrite Er. lia.
  - unfold is_uint32. lia.
  - unfold is_uint32. lia.
  - split; [| split; assumption].
    apply (H1 5 9); [reflexivity | rewrite Ew; lia | rewrite Eh; lia].
Defined.

(** ** The geometry invariant *)

(** [ssd1306_init] establishes the hypotheses of [pixel_access_in_range]
    when the arguments fit the [uint8_t] fields and the allocator returns
    blocks of the size asked for. *)
Lemma init_geometry p w h a i (malloc : allocator) p' tr :
  0 < w <= 255 -> 0 < h <= 255 -> h mod 8 = 0 ->
  (forall n block, malloc n = Some block -> Z.of_nat (length block) = n) ->
  ssd1306_init p w h a i malloc = (true, p', tr) ->
  height p' mod 8 = 0 /\ pages p' = height p' / 8 /\
  bufsize p' = pages p' * width p' /\
  Z.of_nat (length (buffer p')) = bufsize p'.
Proof.
  intros Hw Hh Hm Hmalloc. unfold ssd1306_init.
  destruct (malloc _) as [block|] eqn:E; [| discriminate].
  intros [= <- _]. cbn.
  assert (0 <= h / 8 < 32)
    by (split; [apply Z.div_pos; lia | apply Z.div_lt_upper_bound; lia]).
  rewrite (wrap8_small h), (wrap8_small w), (wrap8_small (h / 8))
    by (change (2 ^ 8) with 256; lia).
  repeat split; try assumption.
  apply Hmalloc in E. rewrite length_drop.
  rewrite (wrap8_small w), (wrap8_small (h / 8)) in E
    by (change (2 ^ 8) with 256; lia).
  nia.
Qed.

(** The pixel routines change the buffer contents only: every field and the
    buffer length stay as they are. *)
Lemma modify_byte_fields p idx f p' :
  modify_byte p idx f = Some p' ->
  width p' = width p /\ height p' = height p /\ pages p' = pages p /\
  bufsize p' = bufsize p /\ rotation p' = rotation p /\
  length (buffer p') = length (buffer p).
Proof.
  unfold modify_byte. destruct (read (buffer p) idx); [| discriminate].
  intros [= <-]. cbn. rewrite length_insert. tauto.
Qed.

Lemma draw_pixel_fields p x y p' :
  ssd1306_draw_pixel p x y = Some p' ->
  width p' = width p /\ height p' = height p /\ pages p' = pages p /\
  bufsize p' = bufsize p /\ rotation p' = rotation p /\
  length (buffer p') = length (buffer p).
Proof.
  unfold ssd1306_draw_pixel.
  destruct (buffer_xy p x y) as [[bx by']|]; [| discriminate].
  cbn [mbind option_bind].
  destruct ((bx <? width p) && (by' <? height p)).
  - apply modify_byte_fields.
  - intros [= <-]. tauto.
Qed.

Lemma clear_pixel_fields p x y p' :
  ssd1306_clear_pixel p x y = Some p' ->
  width p' = width p /\ height p' = height p /\ pages p' = pages p /\
  bufsize p' = bufsize p /\ rotation p' = rotation p /\
  length (buffer p') = length (buffer p).
Proof.
  unfold ssd1306_clear_pixel.
  destruct (buffer_xy p x y) as [[bx by']|]; [| discriminate].
  cbn [mbind option_bind].
  destruct ((bx <? width p) && (by' <? height p)).
  - apply modify_byte_fields.
  - intros [= <-]. tauto.
Qed.

(** ** Bits of a framebuffer byte *)

Lemma wrap8_land_ones z : wrap8 z = Z.land z (Z.ones 8).
Proof. unfold wrap8. rewrite Z.land_ones by lia. reflexivity. Qed.

Lemma bit_mask k : Z.shiftl 0x1 (Z.land k 0x07) = 2 ^ Z.land k 7.
Proof. apply Z.shiftl_1_l. Qed.

Lemma bit_number_range k : 0 <= Z.land k 7 < 8.
Proof.
  change 7 with (Z.ones 3). rewrite Z.land_ones by lia.
  apply Z.mod_pos_bound. lia.
Qed.

Lemma clear_after_set k b :
  wrap8 (clear_bit k (wrap8 (set_bit k b))) = wrap8 (clear_bit k b).
Proof.
  unfold clear_bit, set_bit. rewrite !wrap8_land_ones.
  apply Z.bits_inj'. intros i Hi.
  rewrite ?Z.land_spec, ?Z.lor_spec, ?Z.land_spec.
  rewrite !Z.lnot_spec by exact Hi.
  destruct (Z.testbit b i), (Z.testbit (Z.shiftl 1 (Z.land k 7)) i),
    (Z.testbit (Z.ones 8) i); reflexivity.
Qed.

Lemma clear_bit_unset k b :
  0 <= b < 2 ^ 8 -> Z.testbit b (Z.land k 0x07) = false ->
  wrap8 (clear_bit k b) = b.
Proof.
  intros Hb Hk.
  assert (clear_bit k b = b) as ->; [| apply wrap8_small; exact Hb].
  unfold clear_bit. rewrite bit_mask.
  apply Z.bits_inj'. intros i Hi.
  rewrite Z.land_spec, Z.lnot_spec by exact Hi.
  pose proof (bit_number_range k) as Hr.
  rewrite Z.pow2_bits_eqb by lia.
  destruct (Z.eqb_spec (Z.land k 7) i) as [<-|_]; cbn.
  - rewrite Hk. reflexivity.
  - apply andb_true_r.
Qed.

(** ** Drawing, then clearing, one pixel *)

Lemma buffer_xy_with_buffer p l x y :
  buffer_xy (with_buffer p l) x y = buffer_xy p x y.
Proof. reflexivity. Qed.

Lemma with_buffer_same p : with_buffer p (buffer p) = p.
Proof. destruct p. reflexivity. Qed.

Lemma read_Some_lt (a : list Z) i b :
  read a i = Some b -> 0 <= i /\ (Z.to_nat i < length a)%nat /\ a !! Z.to_nat i = Some b.
Proof.
  unfold read. destruct (Z.ltb_spec i 0); [discriminate |].
  intros L. repeat split; [lia | | exact L]. eapply lookup_lt_Some, L.
Qed.

Lemma modify_byte_twice p idx f g :
  (p1 ← modify_byte p idx f; modify_byte p1 idx g)
  = modify_byte p idx (fun b => g (wrap8 (f b))).
Proof.
  unfold modify_byte. destruct (read (buffer p) idx) as [b|] eqn:E; cbn;
    [| reflexivity].
  destruct (read_Some_lt _ _ _ E) as (H0 & Hlt & _).
  unfold read. destruct (Z.ltb_spec idx 0); [lia |].
  rewrite list_lookup_insert_eq by exact Hlt. cbn.
  unfold with_buffer. cbn. rewrite list_insert_insert_eq. reflexivity.
Qed.

Lemma modify_byte_ext p idx f g :
  (forall b, wrap8 (f b) = wrap8 (g b)) ->
  modify_byte p idx f = modify_byte p idx g.
Proof.
  intros H. unfold modify_byte.
  destruct (read (buffer p) idx); cbn; [rewrite H |]; reflexivity.
Qed.

Lemma clear_after_draw p x y :
  (p1 ← ssd1306_draw_pixel p x y; ssd1306_clear_pixel p1 x y)
  = ssd1306_clear_pixel p x y.
Proof.
  unfold ssd1306_draw_pixel. unfold ssd1306_clear_pixel at 2.
  destruct (buffer_xy p x y) as [[bx by']|] eqn:E; cbn; [| reflexivity].
  destruct ((bx <? width p) && (by' <? height p)) eqn:C.
  - set (idx := byte_index p bx by').
    transitivity (p1 ← modify_byte p idx (set_bit by');
                  modify_byte p1 idx (clear_bit by')).
    + destruct (modify_byte p idx (set_bit by')) as [p1|] eqn:M; cbn;
        [| reflexivity].
      unfold modify_byte in M.
      destruct (read (buffer p) idx); cbn in M; [| discriminate M].
      injection M as <-. unfold ssd1306_clear_pixel.
      rewrite buffer_xy_with_buffer, E. cbn. rewrite C. reflexivity.
    + rewrite modify_byte_twice. apply modify_byte_ext.
      intros b. apply clear_after_set.
  - cbn. unfold ssd1306_clear_pixel. rewrite E. cbn. rewrite C. reflexivity.
Qed.

Lemma clear_unset_pixel p x y :
  Forall is_uint8 (buffer p) -> get_pixel p x y = Some false ->
  ssd1306_clear_pixel p x y = Some p.
Proof.
  intros Hbytes. unfold get_pixel, ssd1306_clear_pixel.
  destruct (buffer_xy p x y) as [[bx by']|]; cbn; [| discriminate].
  destruct ((bx <? width p) && (by' <? height p)); [| discriminate].
  unfold modify_byte.
  destruct (read (buffer p) _) as [b|] eqn:R; cbn; [| discriminate].
  intros [= Hbit].
  destruct (read_Some_lt _ _ _ R) as (_ & _ & L).
  rewrite clear_bit_unset.
  - rewrite list_insert_id by exact L. rewrite with_buffer_same. reflexivity.
  - rewrite Forall_lookup in Hbytes. apply (Hbytes _ _ L).
  - exact Hbit.
Qed.

(** C4, as amended.  For every display and every [(x, y)], drawing and then
    clearing the pixel gives what clearing alone gives; when the pixel was
    unset before the draw (and the buffer holds bytes), that is the display
    as it was before the draw. *)
Theorem draw_then_clear (p : ssd1306_t) (x y : Z) :
  (p1 ← ssd1306_draw_pixel p x y; ssd1306_clear_pixel p1 x y)
    = ssd1306_clear_pixel p x y /\
  (Forall is_uint8 (buffer p) -> get_pixel p x y = Some false ->
   (p1 ← ssd1306_draw_pixel p x y; ssd1306_clear_pixel p1 x y) = Some p).
Proof.
  split.
  - apply clear_after_draw.
  - intros Hb Hg. rewrite clear_after_draw. apply clear_unset_pixel; assumption.
Qed.

Lemma oled_128x64_bytes : Forall is_uint8 (buffer oled_128x64).
Proof.
  assert (buffer oled_128x64 = repeat 0 1024%nat) as ->
      by (vm_compute; reflexivity).
  apply List.Forall_forall. intros b Hb.
  apply repeat_spec in Hb. subst b. unfold is_uint8. lia.
Qed.

Lemma draw_then_clear_witness :
  (p1 ← ssd1306_draw_pixel oled_128x64 5 9; ssd1306_clear_pixel p1 5 9)
  = Some oled_128x64.
Proof.
  apply (proj2 (draw_then_clear oled_128x64 5 9)).
  - exact oled_128x64_bytes.
  - vm_compute. reflexivity.
Defined.

(** C4, as worded, fails: on [oled_lit] the pixel (0, 0) is in
    range and set; after drawing and clearing it the buffer is the cleared
    one, not the one before the draw. *)
Lemma draw_then_clear_counterexample :
  buffer_xy oled_lit 0 0 = Some (0, 0) /\
  (0 <? width oled_lit) && (0 <? height oled_lit) = true /\
  get_pixel oled_lit 0 0 = Some true /\
  (p1 ← ssd1306_draw_pixel oled_lit 0 0; ssd1306_clear_pixel p1 0 0)
    = Some oled_128x64 /\
  lit_pixels oled_128x64 = [] /\ lit_pixels oled_lit = [(0, 0)] /\
  oled_128x64 <> oled_lit.
Proof.
  assert (lit_pixels oled_128x64 = []) as H0 by (vm_compute; reflexivity).
  assert (lit_pixels oled_lit = [(0, 0)]) as H1 by (vm_compute; reflexivity).
  repeat split; try (vm_compute; reflexivity); try assumption.
  intros E. rewrite E, H1 in H0. discriminate H0.
Qed.

(** ** Coordinates rejected by the bounds check *)

Lemma wrap32_shift z k r :
  r = z + k * 2 ^ 32 -> 0 <= r < 2 ^ 32 -> wrap32 z = r.
Proof.
  intros -> H. unfold wrap32.
  rewrite <- (Z.mod_add z k (2 ^ 32)) by lia. apply Z.mod_small. exact H.
Qed.

Lemma rejected_pixel p u v bx by' :
  buffer_xy p u v = Some (bx, by') ->
  width p <= bx \/ height p <= by' ->
  ssd1306_draw_pixel p u v = Some p /\ ssd1306_clear_pixel p u v = Some p.
Proof.
  intros E H. unfold ssd1306_draw_pixel, ssd1306_clear_pixel. rewrite E. cbn.
  assert ((bx <? width p) && (by' <? height p) = false) as ->.
  { apply andb_false_iff. rewrite !Z.ltb_ge. exact H. }
  split; reflexivity.
Qed.

Lemma rotation_cases p :
  0 <= rotation p <= 3 ->
  rotation p = 0 \/ rotation p = 1 \/ rotation p = 2 \/ rotation p = 3.
Proof. lia. Qed.

(** C6, as amended.  For every rotation in 0..3 and every radius up to
    [2 ^ 32 - 512]: a mirrored point whose [x - i] underflows changes
    nothing, under [ssd1306_draw_pixel] and under [ssd1306_clear_pixel]; a
    mirrored point whose [y - j] underflows changes nothing for the
    rotations 0, 2 and 3, and for rotation 1 when
    [width - width / 2 <= height]. *)
Theorem underflow_mirror_rejected (p : ssd1306_t) (x y r i j : Z) :
  is_uint8 (width p) -> is_uint8 (height p) -> 0 <= rotation p <= 3 ->
  is_uint32 x -> is_uint32 y -> 0 <= i < r -> 0 <= j < r ->
  r <= 2 ^ 32 - 512 ->
  (x < i ->
   forall py, is_uint32 py ->
     ssd1306_draw_pixel p (wrap32 (x - i)) py = Some p /\
     ssd1306_clear_pixel p (wrap32 (x - i)) py = Some p) /\
  (y < j ->
   (rotation p = 1 -> width p - width p / 2 <= height p) ->
   forall px, is_uint32 px ->
     ssd1306_draw_pixel p px (wrap32 (y - j)) = Some p /\
     ssd1306_clear_pixel p px (wrap32 (y - j)) = Some p).
Proof.
  unfold is_uint8, is_uint32. intros Hw Hh Hr Hx Hy Hi Hj Hrad.
  change (2 ^ 8) with 256 in *. change (2 ^ 32) with 4294967296 in *.
  split.
  - intros Hu py Hpy.
    assert (wrap32 (x - i) = x - i + 4294967296) as ->
        by (apply wrap32_borrow; change (2 ^ 32) with 4294967296; lia).
    destruct (rotation_cases p Hr) as [E|[E|[E|E]]].
    + eapply rejected_pixel; [unfold buffer_xy; rewrite E; reflexivity |].
      left. lia.
    + eapply rejected_pixel; [unfold buffer_xy; rewrite E; reflexivity |].
      right. lia.
    + eapply rejected_pixel; [unfold buffer_xy; rewrite E; reflexivity |].
      left.
      rewrite (wrap32_shift _ 1 (width p - 1 + (i - x)));
        change (2 ^ 32) with 4294967296; lia.
    + eapply rejected_pixel; [unfold buffer_xy; rewrite E; reflexivity |].
      right.
      rewrite (wrap32_shift _ 1 (height p - 1 + (i - x)));
        change (2 ^ 32) with 4294967296; lia.
  - intros Hu Hgeo px Hpx.
    assert (wrap32 (y - j) = y - j + 4294967296) as ->
        by (apply wrap32_borrow; change (2 ^ 32) with 4294967296; lia).
    destruct (rotation_cases p Hr) as [E|[E|[E|E]]].
    + eapply rejected_pixel; [unfold buffer_xy; rewrite E; reflexivity |].
      right. lia.
    + eapply rejected_pixel; [unfold buffer_xy; rewrite E; reflexivity |].
      left. specialize (Hgeo E).
      assert (0 <= width p / 2 < 128)
        by (split; [apply Z.div_pos; lia | apply Z.div_lt_upper_bound; lia]).
      rewrite (wrap32_shift _ 1 (height p - 1 + (j - y) + width p / 2));
        change (2 ^ 32) with 4294967296; lia.
    + eapply rejected_pixel; [unfold buffer_xy; rewrite E; reflexivity |].
      right.
      rewrite (wrap32_shift _ 1 (height p - 1 + (j - y)));
        change (2 ^ 32) with 4294967296; lia.
    + eapply rejected_pixel; [unfold buffer_xy; rewrite E; reflexivity |].
      left. lia.
Qed.

Lemma underflow_mirror_rejected_witness :
  ssd1306_draw_pixel oled_128x64 (wrap32 (0 - 1)) 1 = Some oled_128x64 /\
  ssd1306_clear_pixel oled_128x64 (wrap32 (0 - 1)) 1 = Some oled_128x64.
Proof.
  destruct oled_128x64_fields as (Ew & Eh & _ & _ & Er & _).
  apply (proj1 (underflow_mirror_rejected oled_128x64 0 0 2 1 1
                  ltac:(rewrite Ew; unfold is_uint8; lia)
                  ltac:(rewrite Eh; unfold is_uint8; lia)
                  ltac:(rewrite Er; lia)
                  ltac:(unfold is_uint32; lia)
                  ltac:(unfold is_uint32; lia)
                  ltac:(lia) ltac:(lia) ltac:(lia))).
  - lia.
  - unfold is_uint32. lia.
Defined.

(** C6, as worded, fails: on a 128x32 display at rotation 1 the
    circle of radius 2 at (0, 0) visits [(i, j) = (0, 1)], whose mirror
    [(x + i, y - j)] has the wrapped ordinate [2 ^ 32 - 1]; the bounds check
    accepts it and the pixel in buffer column 96 is set. *)
Lemma underflow_mirror_counterexample :
  rotation oled_128x32_rot1 = 1 /\
  in_circle 0 1 2 = true /\ 0 - 1 < 0 /\
  mirrors 0 0 0 1 !! 1%nat = Some (0, 4294967295) /\
  lit_pixels <$> ssd1306_draw_pixel oled_128x32_rot1 0 4294967295
    = Some [(96, 0)] /\
  ssd1306_draw_pixel oled_128x32_rot1 0 4294967295 <> Some oled_128x32_rot1 /\
  lit_pixels <$> ssd1306_draw_circle oled_128x32_rot1 0 0 2
    = Some [(94, 0); (94, 1); (95, 0); (95, 1); (96, 0); (96, 1)].
Proof.
  assert (lit_pixels <$> ssd1306_draw_pixel oled_128x32_rot1 0 4294967295
          = Some [(96, 0)]) as H1 by (vm_compute; reflexivity).
  assert (lit_pixels oled_128x32_rot1 = []) as H0 by (vm_compute; reflexivity).
  repeat split; try (vm_compute; reflexivity); try assumption; try lia.
  intros E. rewrite E in H1. cbn [fmap option_fmap option_map] in H1.
  rewrite H0 in H1. discriminate H1.
Qed.

(** The bound on the radius is needed: with [r = 2 ^ 32 - 2] the pair
    [(i, j) = (2 ^ 32 - 3, 1667710795)] passes the wrapped test
    [i * i + j * j <= r * r], and for the centre [(0, 1667710795)] the
    underflowed [x - i] is 3: the mirror [(x - i, y - j)] is pixel (3, 0). *)
Lemma giant_radius_mirror_drawn :
  let r := 4294967294 in
  let i := 4294967293 in
  let j := 1667710795 in
  let x := 0 in
  let y := 1667710795 in
  i < r /\ j < r /\ in_circle i j r = true /\ x < i /\
  lit_pixels <$> ssd1306_draw_pixel oled_128x64 (wrap32 (x - i)) (wrap32 (y - j))
    = Some [(3, 0)].
Proof. cbv zeta. repeat split; try lia; vm_compute; reflexivity. Qed.

Lemma circle_body_mirrors pixel x y r i j q :
  circle_body pixel x y r i j q
  = if in_circle i j r then pixels pixel (mirrors x y i j) q else Some q.
Proof.
  unfold circle_body, mirrors. destruct (in_circle i j r); [| reflexivity].
  cbn [pixels].
  destruct (pixel q _ _) as [q1|]; cbn [mbind option_bind]; [| reflexivity].
  destruct (pixel q1 _ _) as [q2|]; cbn [mbind option_bind]; [| reflexivity].
  destruct (pixel q2 _ _) as [q3|]; cbn [mbind option_bind]; [| reflexivity].
  destruct (pixel q3 _ _) as [q4|]; reflexivity.
Qed.

(** ** Lines *)

Lemma swap_copies a b m :
  load (swap a b m) a = load m b /\ load (swap a b m) b = load m b.
Proof.
  unfold swap, load, store. destruct a, b; cbn; split; reflexivity.
Qed.

Lemma for_le_single i body p :
  i <> INT32_MAX -> for_le i i body p = body i p.
Proof.
  intros H. unfold for_le. replace (i - i + 1) with 1 by lia.
  change (Z.to_nat 1) with 1%nat. cbn [for_loop].
  destruct (body i p) as [p'|]; cbn [mbind option_bind]; [| reflexivity].
  rewrite Z.leb_refl. destruct (Z.eqb_spec i INT32_MAX); [contradiction |].
  reflexivity.
Qed.

(** With [x1 > x2] the two calls of [swap] leave both endpoints equal to
    [(x2, y2)]: the line is that one pixel. *)
Lemma draw_line_backwards p x1 y1 x2 y2 :
  x2 < x1 -> y2 <> INT32_MAX ->
  ssd1306_draw_line p x1 y1 x2 y2
  = ssd1306_draw_pixel p (wrap32 x2) (wrap32 y2).
Proof.
  intros Hx Hy. unfold ssd1306_draw_line.
  cbn [load new_frame swap store line_var_eqb].
  destruct (Z.gtb_spec x1 x2); [| lia].
  cbn [load new_frame swap store line_var_eqb].
  rewrite Z.eqb_refl.
  destruct (Z.gtb_spec y2 y2); [lia |].
  apply for_le_single. exact Hy.
Qed.

(** With [x1 = x2] and [y1 > y2] the call of [swap] leaves [y1 = y2]: the
    line is the pixel [(x1, y2)]. *)
Lemma draw_line_downwards p x y1 y2 :
  y2 < y1 -> y2 <> INT32_MAX ->
  ssd1306_draw_line p x y1 x y2
  = ssd1306_draw_pixel p (wrap32 x) (wrap32 y2).
Proof.
  intros Hlt Hy. unfold ssd1306_draw_line.
  cbn [load new_frame swap store line_var_eqb].
  destruct (Z.gtb_spec x x); [lia |].
  cbn [load new_frame swap store line_var_eqb].
  rewrite Z.eqb_refl.
  destruct (Z.gtb_spec y1 y2); [| lia].
  cbn [load new_frame swap store line_var_eqb].
  apply for_le_single. exact Hy.
Qed.

(** With [x1 = x2] and [y1 <= y2] no [swap] runs, and the line is the
    vertical run from [y1] to [y2]. *)
Lemma draw_line_upwards p x y1 y2 :
  y1 <= y2 -> y2 <> INT32_MAX ->
  ssd1306_draw_line p x y1 x y2
  = for_loop (Z.to_nat (y2 - y1 + 1)) y1
      (fun i q => ssd1306_draw_pixel q (wrap32 x) (wrap32 i)) p.
Proof.
  intros Hle Hy. unfold ssd1306_draw_line.
  cbn [load new_frame swap store line_var_eqb].
  destruct (Z.gtb_spec x x); [lia |].
  cbn [load new_frame swap store line_var_eqb].
  rewrite Z.eqb_refl.
  destruct (Z.gtb_spec y1 y2); [lia |].
  cbn [load new_frame swap store line_var_eqb].
  unfold for_le.
  destruct (for_loop _ y1 _ p) as [p'|]; cbn [mbind option_bind];
    [| reflexivity].
  destruct (Z.eqb_spec y2 INT32_MAX); [contradiction |].
  rewrite andb_false_r. reflexivity.
Qed.

(** C1, evaluated: the line from (10, 0) to (0, 0) on the cleared 128x64
    display sets the pixel (0, 0) and nothing else; the endpoint (10, 0)
    stays unset. *)
Theorem line_misses_first_endpoint :
  lit_pixels <$> ssd1306_draw_line oled_128x64 10 0 0 0 = Some [(0, 0)] /\
  (p' ← ssd1306_draw_line oled_128x64 10 0 0 0; get_pixel p' 10 0)
    = Some false /\
  (p' ← ssd1306_draw_line oled_128x64 10 0 0 0; get_pixel p' 0 0)
    = Some true.
Proof. repeat split; vm_compute; reflexivity. Qed.

(** C2, evaluated: the vertical line from (0, 0) to (0, 5) sets the six
    pixels of the run; with the endpoints exchanged only (0, 0) is set. *)
Theorem line_not_symmetric :
  lit_pixels <$> ssd1306_draw_line oled_128x64 0 0 0 5
    = Some [(0, 0); (0, 1); (0, 2); (0, 3); (0, 4); (0, 5)] /\
  lit_pixels <$> ssd1306_draw_line oled_128x64 0 5 0 0 = Some [(0, 0)].
Proof. split; vm_compute; reflexivity. Qed.

(** The horizontal line of the scenario, drawn left to right through the
    slope computation. *)
Example line_scenario :
  lit_pixels <$> ssd1306_draw_line oled_128x64 0 0 10 0
  = Some [(0, 0); (1, 0); (2, 0); (3, 0); (4, 0); (5, 0); (6, 0); (7, 0);
          (8, 0); (9, 0); (10, 0)].
Proof. vm_compute. reflexivity. Qed.

(** ** Circles *)

(** C3, as amended.  After [ssd1306_draw_circle (20, 20, 5)] on the cleared
    128x64 display the topmost pixel set in column 20 is (20, 16), that is
    [y - (r - 1)]; (20, 15) and (20, 14) are unset. *)
Theorem circle_top :
  (p' ← ssd1306_draw_circle oled_128x64 20 20 5; get_pixel p' 20 16)
    = Some true /\
  (p' ← ssd1306_draw_circle oled_128x64 20 20 5; get_pixel p' 20 15)
    = Some false /\
  (p' ← ssd1306_draw_circle oled_128x64 20 20 5; get_pixel p' 20 14)
    = Some false.
Proof. repeat split; vm_compute; reflexivity. Qed.

(** C3, as worded, fails: the pixel (20, 15) is not set. *)
Lemma circle_top_counterexample :
  (p' ← ssd1306_draw_circle oled_128x64 20 20 5; get_pixel p' 20 15)
    <> Some true.
Proof. vm_compute. discriminate. Qed.

(** ** Strings *)

Lemma draw_string_loop_spec font f1 f2 y scale (s : list Z) :
  read font 1 = Some f1 -> read font 2 = Some f2 ->
  forall (n : nat) (x x_n : Z) (p : ssd1306_t),
    wrap32 x_n = wrap32 (x + Z.of_nat n * ((f1 + f2) * scale)) ->
    draw_string_loop s x_n y scale font p
    = draw_chars_from n (c_string s) x y scale ((f1 + f2) * scale) font p.
Proof.
  intros R1 R2. induction s as [|c s IH]; intros n x x_n p Hx;
    cbn [draw_string_loop c_string draw_chars_from].
  - reflexivity.
  - destruct (c =? 0); cbn [draw_chars_from]; [reflexivity |]. rewrite Hx.
    destruct (ssd1306_draw_char_with_font p
                (wrap32 (x + Z.of_nat n * ((f1 + f2) * scale))) y scale font c)
      as [p'|]; cbn [mbind option_bind]; [| reflexivity].
    rewrite R1, R2. cbn [mbind option_bind]. apply IH.
    rewrite wrap32_to_int32, wrap32_add_r, wrap32_add_l.
    f_equal. lia.
Qed.

(** C7.  [ssd1306_draw_string_with_font] passes character number [n] of the
    string to [ssd1306_draw_char_with_font] at the horizontal position
    [x + n * (width + spacing) * scale] (taken in [uint32_t], and exactly
    that number when it fits), for every string: the position does not
    depend on the characters, so a character outside [first, last] consumes
    the same advance as a drawn one. *)
Theorem string_advance (p : ssd1306_t) (x y scale : Z) (font s : list Z)
    (f1 f2 : Z) :
  read font 1 = Some f1 -> read font 2 = Some f2 ->
  ssd1306_draw_string_with_font p x y scale font s
    = draw_chars_from 0 (c_string s) x y scale ((f1 + f2) * scale) font p /\
  (forall n : nat,
     0 <= x + Z.of_nat n * ((f1 + f2) * scale) < 2 ^ 32 ->
     wrap32 (x + Z.of_nat n * ((f1 + f2) * scale))
       = x + Z.of_nat n * (f1 + f2) * scale).
Proof.
  intros R1 R2. split.
  - unfold ssd1306_draw_string_with_font.
    apply (draw_string_loop_spec font f1 f2 y scale s R1 R2).
    rewrite wrap32_to_int32. f_equal. lia.
  - intros n H. rewrite wrap32_small by exact H. lia.
Qed.

Lemma string_advance_witness :
  ssd1306_draw_string_with_font oled_128x64 0 0 1 font_A [65; 66; 65]
  = draw_chars_from 0 [65; 66; 65] 0 0 1 ((2 + 1) * 1) font_A oled_128x64.
Proof.
  apply (proj1 (string_advance oled_128x64 0 0 1 font_A [65; 66; 65] 2 1
                  eq_refl eq_refl)).
Defined.

Lemma skipped_char_draws_nothing p x y scale font c f3 f4 :
  read font 3 = Some f3 -> read font 4 = Some f4 ->
  c < f3 \/ f4 < c ->
  ssd1306_draw_char_with_font p x y scale font c = Some p.
Proof.
  intros R3 R4 H. unfold ssd1306_draw_char_with_font. rewrite R3. cbn [mbind option_bind].
  destruct (Z.ltb_spec c f3); [reflexivity |].
  rewrite R4. cbn [mbind option_bind]. destruct (Z.gtb_spec c f4); [reflexivity | lia].
Qed.

(** With [font_A], whose only glyph is 65: in the string 65, 66, 65 the
    middle character is skipped, and the third is drawn 6 columns to the
    right of the first. *)
Example skipped_char_advances :
  ssd1306_draw_char_with_font oled_128x64 3 0 1 font_A 66 = Some oled_128x64 /\
  lit_pixels <$> ssd1306_draw_string_with_font oled_128x64 0 0 1 font_A [65]
    = Some [(0, 0); (0, 1); (0, 2); (0, 3); (0, 4); (0, 5); (0, 6); (0, 7);
            (1, 0)] /\
  lit_pixels <$> ssd1306_draw_string_with_font oled_128x64 0 0 1 font_A
                   [65; 66; 65]
    = Some [(0, 0); (0, 1); (0, 2); (0, 3); (0, 4); (0, 5); (0, 6); (0, 7);
            (1, 0);
            (6, 0); (6, 1); (6, 2); (6, 3); (6, 4); (6, 5); (6, 6); (6, 7);
            (7, 0)].
Proof. repeat split; vm_compute; reflexivity. Qed.

(** ** Bitmaps *)

Lemma read_lt (a : list Z) i :
  0 <= i < Z.of_nat (length a) -> exists b, read a i = Some b.
Proof. intros H. destruct (read_is_Some a i H) as [b E]. eauto. Qed.

Lemma bmp_get_val_2 data offset :
  0 <= offset -> offset + 1 < Z.of_nat (length data) ->
  exists v, ssd1306_bmp_get_val data offset 2 = Some v.
Proof.
  intros H0 H1. unfold ssd1306_bmp_get_val.
  destruct (read_lt data offset) as [b0 ->]; [lia |].
  destruct (read_lt data (offset + 1)) as [b1 ->]; [lia |].
  cbn [mbind option_bind]. eauto.
Qed.

Lemma bmp_get_val_4 data offset :
  0 <= offset -> offset + 3 < Z.of_nat (length data) ->
  exists v, ssd1306_bmp_get_val data offset 4 = Some v.
Proof.
  intros H0 H1. unfold ssd1306_bmp_get_val.
  destruct (read_lt data offset) as [b0 ->]; [lia |].
  destruct (read_lt data (offset + 1)) as [b1 ->]; [lia |].
  destruct (read_lt data (offset + 2)) as [b2 ->]; [lia |].
  destruct (read_lt data (offset + 3)) as [b3 ->]; [lia |].
  cbn [mbind option_bind]. eauto.
Qed.

(** C8.  When the size passed is below 54, or the bit depth read at offset 28
    is not 1, or the compression field read at offset 30 is not 0,
    [ssd1306_bmp_show_image_with_offset] returns the display unchanged: no
    pixel is drawn, and the routine has no other result. *)
Theorem bmp_rejects (p : ssd1306_t) (data : list Z) (size : Z)
    (x_offset y_offset : Z) :
  size <= Z.of_nat (length data) ->
  size < 54 \/
  wrap16 <$> ssd1306_bmp_get_val data 28 2 <> Some 1 \/
  ssd1306_bmp_get_val data 30 4 <> Some 0 ->
  ssd1306_bmp_show_image_with_offset p data size x_offset y_offset = Some p.
Proof.
  intros Hlen H. unfold ssd1306_bmp_show_image_with_offset.
  destruct (Z.ltb_spec size 54) as [|Hsz]; [reflexivity |].
  destruct H as [H | H]; [lia |].
  destruct (bmp_get_val_4 data 10) as [v10 ->]; [lia | lia |].
  destruct (bmp_get_val_4 data 14) as [v14 ->]; [lia | lia |].
  destruct (bmp_get_val_4 data 18) as [v18 ->]; [lia | lia |].
  destruct (bmp_get_val_4 data 22) as [v22 E22]; [lia | lia |].
  destruct (bmp_get_val_2 data 28) as [v28 E28]; [lia | lia |].
  destruct (bmp_get_val_4 data 30) as [v30 E30]; [lia | lia |].
  rewrite E22, E28, E30 in *.
  cbn [mbind option_bind fmap option_fmap option_map] in *.
  destruct (Z.eqb_spec (wrap16 v28) 1) as [E1|]; cbn [negb]; [| reflexivity].
  destruct (Z.eqb_spec v30 0) as [E0|]; cbn [negb]; [| reflexivity].
  destruct H as [H | H]; exfalso; apply H; congruence.
Qed.

Lemma bmp_rejects_witness :
  ssd1306_bmp_show_image_with_offset oled_128x64 (bmp_1x1 4 0 0x80) 66 3 4
  = Some oled_128x64.
Proof.
  apply (bmp_rejects oled_128x64 (bmp_1x1 4 0 0x80) 66 3 4).
  - cbn. lia.
  - right. left. vm_compute. discriminate.
Defined.

(** A 1x1 image of depth 1, uncompressed, whose palette entry 0 is black:
    the pixel at the offset is set exactly when the data bit is 0. *)
Example bmp_1x1_scenario :
  lit_pixels <$> ssd1306_bmp_show_image_with_offset oled_128x64
                   (bmp_1x1 1 0 0x00) 66 3 4 = Some [(3, 4)] /\
  lit_pixels <$> ssd1306_bmp_show_image_with_offset oled_128x64
                   (bmp_1x1 1 0 0x80) 66 3 4 = Some [] /\
  ssd1306_bmp_show_image_with_offset oled_128x64 (bmp_1x1 1 1 0x00) 66 3 4
    = Some oled_128x64 /\
  ssd1306_bmp_show_image_with_offset oled_128x64 (bmp_1x1 1 0 0x00) 53 3 4
    = Some oled_128x64.
Proof. repeat split; vm_compute; reflexivity. Qed.

(** * Further properties *)

(** ** The display invariant *)

Lemma same_fields_refl p : same_fields p p.
Proof. split; [symmetry; apply with_buffer_same | reflexivity]. Qed.

Lemma same_fields_trans p q r :
  same_fields p q -> same_fields q r -> same_fields p r.
Proof.
  intros [E1 L1] [E2 L2]. split; [| congruence].
  rewrite E2 at 1. rewrite E1. reflexivity.
Qed.

Lemma same_fields_proj p p' :
  same_fields p p' ->
  width p' = width p /\ height p' = height p /\ pages p' = pages p /\
  bufsize p' = bufsize p /\ rotation p' = rotation p /\
  address p' = address p.
Proof. intros [E _]. rewrite E. cbn. tauto. Qed.

Lemma same_fields_geometry p p' :
  same_fields p p' -> geometry_ok p -> geometry_ok p'.
Proof.
  intros H G. destruct (same_fields_proj _ _ H) as (Ew & Eh & Ep & Eb & Er & _).
  destruct H as [_ El]. destruct G.
  constructor; rewrite ?Ew, ?Eh, ?Ep, ?Eb, ?Er, ?El; assumption.
Qed.

Lemma modify_byte_same_fields p idx f p' :
  modify_byte p idx f = Some p' -> same_fields p p'.
Proof.
  unfold modify_byte. destruct (read (buffer p) idx); [| discriminate].
  intros [= <-]. split; [reflexivity |]. cbn. apply length_insert.
Qed.

(** ** Reading a pixel after a byte was modified *)

(** The byte and the bit that [(x, y)] names, when it passes the bounds
    check. *)
Lemma get_pixel_unfold p a b :
  get_pixel p a b
  = '(bx, by') ← buffer_xy p a b;
    if (bx <? width p) && (by' <? height p)
    then b0 ← read (buffer p) (byte_index p bx by');
         Some (Z.testbit b0 (Z.land by' 7))
    else None.
Proof. reflexivity. Qed.

Lemma read_insert (l : list Z) i j v :
  0 <= i -> 0 <= j -> (Z.to_nat i < length l)%nat ->
  read (<[Z.to_nat i := v]> l) j = if j =? i then Some v else read l j.
Proof.
  intros Hi Hj Hlt. unfold read.
  destruct (Z.ltb_spec j 0); [lia |].
  destruct (Z.eqb_spec j i) as [->|Hne].
  - apply list_lookup_insert_eq. exact Hlt.
  - apply list_lookup_insert_ne. lia.
Qed.

Lemma get_pixel_modify p idx f p' a b :
  modify_byte p idx f = Some p' ->
  get_pixel p' a b
  = '(bx, by') ← buffer_xy p a b;
    if (bx <? width p) && (by' <? height p)
    then b0 ← read (buffer p) (byte_index p bx by');
         Some (Z.testbit (if byte_index p bx by' =? idx then wrap8 (f b0)
                          else b0) (Z.land by' 7))
    else None.
Proof.
  unfold modify_byte. destruct (read (buffer p) idx) as [b0|] eqn:R;
    [| discriminate].
  intros [= <-]. rewrite get_pixel_unfold.
  change (buffer_xy (with_buffer p _) a b) with (buffer_xy p a b).
  destruct (buffer_xy p a b) as [[bx by']|]; [| reflexivity].
  cbn [mbind option_bind].
  change (width (with_buffer p _)) with (width p).
  change (height (with_buffer p _)) with (height p).
  destruct ((bx <? width p) && (by' <? height p)); [| reflexivity].
  change (byte_index (with_buffer p _) bx by') with (byte_index p bx by').
  change (buffer (with_buffer p ?l)) with l.
  destruct (read_Some_lt _ _ _ R) as (H0 & Hlt & _).
  pose proof (wrap32_range (bx + width p * Z.shiftr by' 3)) as Hj.
  fold (byte_index p bx by') in Hj.
  rewrite read_insert by lia.
  destruct (Z.eqb_spec (byte_index p bx by') idx) as [->|].
  - rewrite R. reflexivity.
  - reflexivity.
Qed.

(** ** One bit of a byte *)

Lemma testbit_wrap8 z k : 0 <= k < 8 -> Z.testbit (wrap8 z) k = Z.testbit z k.
Proof.
  intros H. unfold wrap8. apply Z.mod_pow2_bits_low. lia.
Qed.

Lemma testbit_set_bit cy b k :
  0 <= k < 8 ->
  Z.testbit (wrap8 (set_bit cy b)) k = Z.testbit b k || (Z.land cy 7 =? k).
Proof.
  intros H. rewrite testbit_wrap8 by exact H. unfold set_bit.
  rewrite bit_mask, Z.lor_spec.
  pose proof (bit_number_range cy).
  rewrite Z.pow2_bits_eqb by lia. reflexivity.
Qed.

Lemma testbit_clear_bit cy b k :
  0 <= k < 8 ->
  Z.testbit (wrap8 (clear_bit cy b)) k
  = Z.testbit b k && negb (Z.land cy 7 =? k).
Proof.
  intros H. rewrite testbit_wrap8 by exact H. unfold clear_bit.
  rewrite bit_mask, Z.land_spec, Z.lnot_spec by lia.
  pose proof (bit_number_range cy).
  rewrite Z.pow2_bits_eqb by lia. reflexivity.
Qed.

(** ** Distinct coordinates name distinct bits *)

Lemma wrap32_sub_inj c u v :
  is_uint32 u -> is_uint32 v -> wrap32 (c - u) = wrap32 (c - v) -> u = v.
Proof.
  unfold is_uint32, wrap32. intros Hu Hv E.
  assert ((v - u) mod 2 ^ 32 = 0) as H.
  { replace (v - u) with ((c - u) - (c - v)) by lia.
    rewrite Zminus_mod, E, Z.sub_diag. reflexivity. }
  apply Z.mod_divide in H; [| lia]. destruct H as [k Hk].
  assert (k = 0) by lia. lia.
Qed.

Lemma buffer_xy_inj p a b x y bx by' :
  is_uint32 a -> is_uint32 b -> is_uint32 x -> is_uint32 y ->
  buffer_xy p a b = Some (bx, by') -> buffer_xy p x y = Some (bx, by') ->
  a = x /\ b = y.
Proof.
  intros Ha Hb Hx Hy. unfold buffer_xy.
  destruct (rotation p) as [|[r|r|]|]; try discriminate;
    try (destruct r; discriminate);
    try (destruct r as [r|r|]; try discriminate);
    intros [= <- <-] [= E1 E2]; subst;
    repeat match goal with
           | H : wrap32 (?c - ?u) = wrap32 (?c - ?v) |- _ =>
               apply wrap32_sub_inj in H; [subst | assumption | assumption]
           | H : wrap32 (?c - ?u + ?d) = wrap32 (?c - ?v + ?d) |- _ =>
               replace (c - u + d) with (c + d - u) in H by lia;
               replace (c - v + d) with (c + d - v) in H by lia
           end; auto.
Qed.

Lemma land_7_mod z : Z.land z 7 = z mod 8.
Proof. change 7 with (Z.ones 3). apply Z.land_ones. lia. Qed.

Lemma byte_index_exact p bx by' :
  is_uint8 (width p) -> 0 <= bx < width p -> 0 <= by' < 2 ^ 8 ->
  byte_index p bx by' = bx + width p * (by' / 8).
Proof.
  unfold is_uint8, byte_index. intros Hw Hx Hy.
  rewrite Z.shiftr_div_pow2 by lia. change (2 ^ 3) with 8.
  change (2 ^ 8) with 256 in *.
  assert (0 <= by' / 8 < 32)
    by (split; [apply Z.div_pos; lia | apply Z.div_lt_upper_bound; lia]).
  apply wrap32_small. change (2 ^ 32) with 4294967296. nia.
Qed.

Lemma byte_bit_inj p bx by' cx cy :
  is_uint8 (width p) -> is_uint8 (height p) ->
  0 <= bx < width p -> 0 <= by' < height p ->
  0 <= cx < width p -> 0 <= cy < height p ->
  byte_index p bx by' = byte_index p cx cy ->
  Z.land by' 7 = Z.land cy 7 ->
  bx = cx /\ by' = cy.
Proof.
  intros Hw Hh Hbx Hby Hcx Hcy Ei Eb.
  unfold is_uint8 in Hh.
  rewrite !byte_index_exact in Ei by (auto; lia).
  rewrite !land_7_mod in Eb.
  pose proof (Z.div_mod by' 8). pose proof (Z.div_mod cy 8).
  assert (by' / 8 = cy / 8) by nia.
  split; [nia | lia].
Qed.

(** For two coordinates that pass the bounds check: same byte and same bit
    exactly when the coordinates are the same. *)
Lemma same_bit_iff p a b x y bx by' cx cy :
  geometry_ok p ->
  is_uint32 a -> is_uint32 b -> is_uint32 x -> is_uint32 y ->
  buffer_xy p a b = Some (bx, by') ->
  (bx <? width p) && (by' <? height p) = true ->
  buffer_xy p x y = Some (cx, cy) ->
  (cx <? width p) && (cy <? height p) = true ->
  (byte_index p bx by' = byte_index p cx cy /\ Z.land cy 7 = Z.land by' 7)
  <-> (a = x /\ b = y).
Proof.
  intros G Ha Hb Hx Hy E1 R1 E2 R2.
  apply andb_true_iff in R1 as [R1x R1y]. apply andb_true_iff in R2 as [R2x R2y].
  apply Z.ltb_lt in R1x, R1y, R2x, R2y.
  destruct (buffer_xy_nonneg _ _ _ _ _ Ha Hb E1).
  destruct (buffer_xy_nonneg _ _ _ _ _ Hx Hy E2).
  split.
  - intros [Ei Eb].
    destruct (byte_bit_inj p bx by' cx cy) as [-> ->];
      try (destruct G; assumption); try lia.
    eapply buffer_xy_inj; eauto.
  - intros [-> ->]. rewrite E1 in E2. injection E2 as -> ->. split; reflexivity.
Qed.

Lemma pixel_byte_exists p x y cx cy :
  geometry_ok p -> is_uint32 x -> is_uint32 y ->
  buffer_xy p x y = Some (cx, cy) ->
  (cx <? width p) && (cy <? height p) = true ->
  exists b0, read (buffer p) (byte_index p cx cy) = Some b0.
Proof.
  intros G Hx Hy E R.
  apply andb_true_iff in R as [Rx Ry]. apply Z.ltb_lt in Rx, Ry.
  destruct (buffer_xy_nonneg _ _ _ _ _ Hx Hy E).
  apply read_lt. rewrite (geo_buffer p G).
  apply byte_index_bound; try apply G; lia.
Qed.

(** ** What one pixel call does *)

Section OnePixel.

Variables (p : ssd1306_t) (x y : Z).
Hypothesis G : geometry_ok p.
Hypotheses (Hx : is_uint32 x) (Hy : is_uint32 y).

(** The state of any pixel after the byte of [(x, y)] went through [f],
    when [f] changes the bit [buffer_y & 7] as [g] says and no other. *)
Lemma modified_pixel cx cy fbyte (g : bool -> bool) p' :
  buffer_xy p x y = Some (cx, cy) ->
  (cx <? width p) && (cy <? height p) = true ->
  (forall b0 k, 0 <= k < 8 ->
     Z.testbit (wrap8 (fbyte b0)) k
     = if Z.land cy 7 =? k then g (Z.testbit b0 k) else Z.testbit b0 k) ->
  modify_byte p (byte_index p cx cy) fbyte = Some p' ->
  forall a b, is_uint32 a -> is_uint32 b ->
    match get_pixel p a b with
    | None => get_pixel p' a b = None
    | Some old =>
        get_pixel p' a b
        = Some (if bool_decide (a = x /\ b = y) then g old else old)
    end.
Proof.
  intros E R Hf M a b Ha Hb.
  rewrite (get_pixel_modify _ _ _ _ a b M), get_pixel_unfold.
  destruct (buffer_xy p a b) as [[bx by']|] eqn:E'; [| reflexivity].
  cbn [mbind option_bind].
  destruct ((bx <? width p) && (by' <? height p)) eqn:R'; [| reflexivity].
  destruct (read (buffer p) (byte_index p bx by')) as [b0|]; [| reflexivity].
  cbn [mbind option_bind]. f_equal.
  pose proof (same_bit_iff p a b x y bx by' cx cy G Ha Hb Hx Hy E' R' E R)
    as Hiff.
  pose proof (bit_number_range by') as Hk.
  destruct (Z.eqb_spec (byte_index p bx by') (byte_index p cx cy)) as [Ei|Ni].
  - rewrite Hf by exact Hk.
    destruct (Z.eqb_spec (Z.land cy 7) (Z.land by' 7)) as [Eb|Nb].
    + rewrite bool_decide_eq_true_2 by (apply Hiff; auto). reflexivity.
    + rewrite bool_decide_eq_false_2 by (intros H; apply Hiff in H; tauto).
      reflexivity.
  - rewrite bool_decide_eq_false_2 by (intros H; apply Hiff in H; tauto).
    reflexivity.
Qed.

Lemma draw_pixel_paints :
  exists p', ssd1306_draw_pixel p x y = Some p' /\
             paints (fun a b => a = x /\ b = y) p p'.
Proof.
  destruct (buffer_xy_is_Some p x y (geo_rotation p G)) as (cx & cy & E).
  unfold ssd1306_draw_pixel. rewrite E. cbn [mbind option_bind].
  destruct ((cx <? width p) && (cy <? height p)) eqn:R.
  - destruct (pixel_byte_exists p x y cx cy G Hx Hy E R) as [b0 Rb].
    destruct (modify_byte p (byte_index p cx cy) (set_bit cy)) as [p'|] eqn:M.
    2:{ unfold modify_byte in M. rewrite Rb in M. discriminate M. }
    exists p'. split; [reflexivity |]. split.
    + eapply modify_byte_same_fields, M.
    + intros a b Ha Hb.
      pose proof (modified_pixel cx cy (set_bit cy) (fun _ => true) p' E R) as H.
      specialize (H ltac:(intros b1 k Hk; rewrite testbit_set_bit by exact Hk;
                          destruct (Z.land cy 7 =? k), (Z.testbit b1 k);
                          reflexivity) M a b Ha Hb).
      destruct (get_pixel p a b) as [old|]; [| exact H].
      eexists. split; [exact H |].
      destruct (bool_decide_reflect (a = x /\ b = y)); destruct old;
        intuition congruence.
  - exists p. split; [reflexivity |]. split; [apply same_fields_refl |].
    intros a b Ha Hb. destruct (get_pixel p a b) as [old|] eqn:Eg;
      [| reflexivity].
    exists old. split; [reflexivity |]. split; [tauto |].
    intros [H | [-> ->]]; [exact H |].
    rewrite get_pixel_unfold, E in Eg. cbn [mbind option_bind] in Eg.
    rewrite R in Eg. discriminate Eg.
Qed.

Lemma clear_pixel_erases :
  exists p', ssd1306_clear_pixel p x y = Some p' /\
             erases (fun a b => a = x /\ b = y) p p'.
Proof.
  destruct (buffer_xy_is_Some p x y (geo_rotation p G)) as (cx & cy & E).
  unfold ssd1306_clear_pixel. rewrite E. cbn [mbind option_bind].
  destruct ((cx <? width p) && (cy <? height p)) eqn:R.
  - destruct (pixel_byte_exists p x y cx cy G Hx Hy E R) as [b0 Rb].
    destruct (modify_byte p (byte_index p cx cy) (clear_bit cy)) as [p'|] eqn:M.
    2:{ unfold modify_byte in M. rewrite Rb in M. discriminate M. }
    exists p'. split; [reflexivity |]. split.
    + eapply modify_byte_same_fields, M.
    + intros a b Ha Hb.
      pose proof (modified_pixel cx cy (clear_bit cy) (fun _ => false) p' E R)
        as H.
      specialize (H ltac:(intros b1 k Hk; rewrite testbit_clear_bit by exact Hk;
                          destruct (Z.land cy 7 =? k), (Z.testbit b1 k);
                          reflexivity) M a b Ha Hb).
      destruct (get_pixel p a b) as [old|]; [| exact H].
      eexists. split; [exact H |].
      destruct (bool_decide_reflect (a = x /\ b = y)); destruct old;
        intuition congruence.
  - exists p. split; [reflexivity |]. split; [apply same_fields_refl |].
    intros a b Ha Hb. destruct (get_pixel p a b) as [old|] eqn:Eg;
      [| reflexivity].
    exists old. split; [reflexivity |]. split; [| tauto].
    intros H. split; [exact H |]. intros [-> ->].
    rewrite get_pixel_unfold, E in Eg. cbn [mbind option_bind] in Eg.
    rewrite R in Eg. discriminate Eg.
Qed.

End OnePixel.

(** ** Sequences of pixel calls *)

Lemma paints_nothing p : paints (fun _ _ => False) p p.
Proof.
  split; [apply same_fields_refl |]. intros a b _ _.
  destruct (get_pixel p a b) as [old|]; [| reflexivity].
  exists old. split; [reflexivity | tauto].
Qed.

Lemma paints_compose S T p p' p'' :
  paints S p p' -> paints T p' p'' ->
  paints (fun a b => S a b \/ T a b) p p''.
Proof.
  intros [F1 H1] [F2 H2]. split; [eapply same_fields_trans; eauto |].
  intros a b Ha Hb. specialize (H1 a b Ha Hb). specialize (H2 a b Ha Hb).
  destruct (get_pixel p a b) as [old|].
  - destruct H1 as (mid & E1 & I1). rewrite E1 in H2.
    destruct H2 as (new & E2 & I2). exists new. split; [exact E2 | tauto].
  - rewrite H1 in H2. exact H2.
Qed.

Lemma paints_iff S T p p' :
  (forall a b, is_uint32 a -> is_uint32 b -> S a b <-> T a b) ->
  paints S p p' -> paints T p p'.
Proof.
  intros HST [F H]. split; [exact F |]. intros a b Ha Hb.
  specialize (H a b Ha Hb). specialize (HST a b Ha Hb).
  destruct (get_pixel p a b) as [old|]; [| exact H].
  destruct H as (new & E & I). exists new. split; [exact E | tauto].
Qed.




Lemma pixels_draw_paints l :
  uint32_cells l ->
  forall p, geometry_ok p ->
    exists p', pixels ssd1306_draw_pixel l p = Some p' /\
               paints (fun a b => In (a, b) l) p p'.
Proof.
  induction 1 as [|[u v] l [Hu Hv] _ IH]; intros p G; cbn [pixels].
  - exists p. split; [reflexivity |].
    eapply paints_iff; [| apply paints_nothing]. cbn. tauto.
  - destruct (draw_pixel_paints p u v G Hu Hv) as (p1 & -> & P1).
    cbn [mbind option_bind].
    destruct (IH p1 (same_fields_geometry _ _ (proj1 P1) G)) as (p' & E & P2).
    exists p'. split; [exact E |].
    eapply paints_iff; [| eapply paints_compose; eauto].
    intros a b _ _. cbn. split.
    + intros [[-> ->] | H]; auto.
    + intros [[= -> ->] | H]; auto.
Qed.


(** ** Loops as sequences of pixel calls *)

Lemma pixels_app pixel l1 l2 p :
  pixels pixel (l1 ++ l2) p = pixels pixel l1 p ≫= pixels pixel l2.
Proof.
  revert p. induction l1 as [|[u v] l1 IH]; intros p; cbn [pixels app].
  - reflexivity.
  - destruct (pixel p u v) as [q|]; cbn [mbind option_bind];
      [apply IH | reflexivity].
Qed.

Lemma pixels_one pixel u v p : pixels pixel [(u, v)] p = pixel p u v.
Proof. cbn [pixels]. destruct (pixel p u v); reflexivity. Qed.

Lemma for_loop_pixels pixel body (F : Z -> list (Z * Z)) :
  (forall k q, body k q = pixels pixel (F k) q) ->
  forall n i p,
    for_loop n i body p = pixels pixel (flat_map F (counters n i)) p.
Proof.
  intros HF. induction n as [|n IH]; intros i p;
    cbn [for_loop counters flat_map].
  - reflexivity.
  - rewrite pixels_app, HF.
    destruct (pixels pixel (F i) p) as [q|]; cbn [mbind option_bind];
      [apply IH | reflexivity].
Qed.

Lemma In_counters n i k :
  In k (counters n i) <-> i <= k < i + Z.of_nat n.
Proof.
  revert i. induction n as [|n IH]; intros i; cbn [counters In].
  - lia.
  - rewrite IH. lia.
Qed.

Lemma In_counters_lt w k :
  In k (counters (Z.to_nat w) 0) <-> 0 <= k < w.
Proof. rewrite In_counters. lia. Qed.

(** ** Squares and circles *)

Lemma draw_square_pixels p x y w h :
  ssd1306_draw_square p x y w h
  = pixels ssd1306_draw_pixel (square_cells x y w h) p.
Proof.
  unfold ssd1306_draw_square, for_lt, square_cells.
  apply for_loop_pixels. intros i q.
  apply for_loop_pixels. intros j q'. symmetry. apply pixels_one.
Qed.


Lemma draw_circle_pixels p x y r :
  ssd1306_draw_circle p x y r
  = pixels ssd1306_draw_pixel (circle_cells x y r) p.
Proof.
  unfold ssd1306_draw_circle, for_lt, circle_cells.
  apply for_loop_pixels. intros i q.
  apply for_loop_pixels. intros j q'. rewrite circle_body_mirrors.
  destruct (in_circle i j r); reflexivity.
Qed.


Lemma In_square_cells x y w h a b :
  In (a, b) (square_cells x y w h)
  <-> exists i j, 0 <= i < w /\ 0 <= j < h /\
                  a = wrap32 (x + i) /\ b = wrap32 (y + j).
Proof.
  unfold square_cells. rewrite in_flat_map. split.
  - intros (i & Hi & H). apply in_flat_map in H as (j & Hj & H).
    apply In_counters_lt in Hi, Hj. cbn in H.
    destruct H as [[= <- <-] | []]. eauto 8.
  - intros (i & j & Hi & Hj & -> & ->). exists i.
    split; [apply In_counters_lt; exact Hi |].
    apply in_flat_map. exists j.
    split; [apply In_counters_lt; exact Hj | left; reflexivity].
Qed.

Lemma In_circle_cells x y r a b :
  In (a, b) (circle_cells x y r)
  <-> exists i j, 0 <= i < r /\ 0 <= j < r /\ in_circle i j r = true /\
                  In (a, b) (mirrors x y i j).
Proof.
  unfold circle_cells. rewrite in_flat_map. split.
  - intros (i & Hi & H). apply in_flat_map in H as (j & Hj & H).
    apply In_counters_lt in Hi, Hj.
    destruct (in_circle i j r) eqn:C; [| destruct H]. eauto 8.
  - intros (i & j & Hi & Hj & C & H). exists i.
    split; [apply In_counters_lt; exact Hi |].
    apply in_flat_map. exists j.
    split; [apply In_counters_lt; exact Hj | rewrite C; exact H].
Qed.

Lemma uint32_flat_map {A} (F : A -> list (Z * Z)) (l : list A) :
  (forall k, uint32_cells (F k)) -> uint32_cells (flat_map F l).
Proof.
  intros H. unfold uint32_cells. induction l as [|k l IH]; cbn [flat_map].
  - constructor.
  - apply List.Forall_app. split; [apply H | exact IH].
Qed.

Lemma uint32_square_cells x y w h : uint32_cells (square_cells x y w h).
Proof.
  unfold square_cells. apply uint32_flat_map. intros i.
  apply uint32_flat_map. intros j.
  constructor; [| constructor]. split; apply wrap32_range.
Qed.

Lemma uint32_mirrors x y i j : uint32_cells (mirrors x y i j).
Proof.
  unfold mirrors, uint32_cells.
  repeat (constructor; [split; apply wrap32_range |]). constructor.
Qed.

Lemma uint32_circle_cells x y r : uint32_cells (circle_cells x y r).
Proof.
  unfold circle_cells. apply uint32_flat_map. intros i.
  apply uint32_flat_map. intros j.
  destruct (in_circle i j r); [apply uint32_mirrors | constructor].
Qed.

(** ** The example display satisfies the invariant *)

Lemma oled_128x64_geometry : geometry_ok oled_128x64.
Proof.
  destruct oled_128x64_fields as (Ew & Eh & Ep & Eb & Er & El).
  constructor; unfold is_uint8;
    rewrite ?El, ?Eb, ?Ep, ?Ew, ?Eh, ?Er; try reflexivity; lia.
Qed.

Lemma paints_geometry S p p' : paints S p p' -> geometry_ok p -> geometry_ok p'.
Proof. intros [F _]. apply same_fields_geometry, F. Qed.

Lemma erases_geometry S p p' : erases S p p' -> geometry_ok p -> geometry_ok p'.
Proof. intros [F _]. apply same_fields_geometry, F. Qed.

(** ** Pixels, squares and circles: what is set, what is unset *)

(** X1.  On a display that satisfies the invariant, [ssd1306_draw_pixel]
    always returns a display that satisfies it again; it sets the pixel
    [(x, y)] when that pixel exists and changes no other pixel and no
    field. *)
Theorem draw_pixel_sets_one (p : ssd1306_t) (x y : Z) :
  geometry_ok p -> is_uint32 x -> is_uint32 y ->
  exists p', ssd1306_draw_pixel p x y = Some p' /\ geometry_ok p' /\
             paints (fun a b => a = x /\ b = y) p p'.
Proof.
  intros G Hx Hy.
  destruct (draw_pixel_paints p x y G Hx Hy) as (p' & E & P).
  exists p'. split; [exact E |]. split; [| exact P].
  exact (paints_geometry _ _ _ P G).
Qed.

Lemma draw_pixel_sets_one_witness :
  exists p', ssd1306_draw_pixel oled_128x64 5 9 = Some p' /\ geometry_ok p' /\
             paints (fun a b => a = 5 /\ b = 9) oled_128x64 p'.
Proof.
  apply (draw_pixel_sets_one oled_128x64 5 9 oled_128x64_geometry);
    unfold is_uint32; lia.
Defined.

Lemma oled_lit_geometry : geometry_ok oled_lit.
Proof.
  destruct (draw_pixel_paints oled_128x64 0 0 oled_128x64_geometry)
    as (p' & E & P); [unfold is_uint32; lia .. |].
  unfold oled_lit. rewrite E. cbn [default from_option].
  exact (paints_geometry _ _ _ P oled_128x64_geometry).
Qed.

(** X2.  On a display that satisfies the invariant, [ssd1306_clear_pixel]
    always returns a display that satisfies it again; it unsets the pixel
    [(x, y)] when that pixel exists and changes no other pixel and no
    field. *)
Theorem clear_pixel_unsets_one (p : ssd1306_t) (x y : Z) :
  geometry_ok p -> is_uint32 x -> is_uint32 y ->
  exists p', ssd1306_clear_pixel p x y = Some p' /\ geometry_ok p' /\
             erases (fun a b => a = x /\ b = y) p p'.
Proof.
  intros G Hx Hy.
  destruct (clear_pixel_erases p x y G Hx Hy) as (p' & E & P).
  exists p'. split; [exact E |]. split; [| exact P].
  exact (erases_geometry _ _ _ P G).
Qed.

Lemma clear_pixel_unsets_one_witness :
  exists p', ssd1306_clear_pixel oled_lit 0 0 = Some p' /\ geometry_ok p' /\
             erases (fun a b => a = 0 /\ b = 0) oled_lit p'.
Proof.
  apply (clear_pixel_unsets_one oled_lit 0 0 oled_lit_geometry);
    unfold is_uint32; lia.
Defined.

(** X3.  [ssd1306_draw_square] always returns on a display that satisfies
    the invariant, and the result satisfies it again; it sets exactly the
    existing pixels [(x + i, y + j)], [0 <= i < width],
    [0 <= j < height] (sums in [uint32_t]) and changes nothing else. *)
Theorem draw_square_paints (p : ssd1306_t) (x y w h : Z) :
  geometry_ok p ->
  exists p', ssd1306_draw_square p x y w h = Some p' /\ geometry_ok p' /\
             paints (fun a b => exists i j, 0 <= i < w /\ 0 <= j < h /\
                                  a = wrap32 (x + i) /\ b = wrap32 (y + j))
                    p p'.
Proof.
  intros G. rewrite draw_square_pixels.
  destruct (pixels_draw_paints _ (uint32_square_cells x y w h) p G)
    as (p' & E & P).
  exists p'. split; [exact E |].
  split; [exact (paints_geometry _ _ _ P G) |].
  eapply paints_iff; [| exact P]. intros a b _ _. apply In_square_cells.
Qed.

Lemma draw_square_paints_witness :
  exists p', ssd1306_draw_square oled_128x64 120 60 16 16 = Some p' /\
             geometry_ok p' /\
             paints (fun a b => exists i j, 0 <= i < 16 /\ 0 <= j < 16 /\
                                  a = wrap32 (120 + i) /\ b = wrap32 (60 + j))
                    oled_128x64 p'.
Proof. apply (draw_square_paints oled_128x64 120 60 16 16 oled_128x64_geometry). Defined.



(** X5.  [ssd1306_draw_circle] always returns on a display that satisfies
    the invariant, and the result satisfies it again; it sets exactly the
    existing pixels among the four mirrors [(x +- i, y +- j)] of the pairs
    [i, j < r] that pass the test [i * i + j * j <= r * r], and changes
    nothing else. *)
Theorem draw_circle_paints (p : ssd1306_t) (x y r : Z) :
  geometry_ok p ->
  exists p', ssd1306_draw_circle p x y r = Some p' /\ geometry_ok p' /\
             paints (fun a b => exists i j, 0 <= i < r /\ 0 <= j < r /\
                                  in_circle i j r = true /\
                                  In (a, b) (mirrors x y i j))
                    p p'.
Proof.
  intros G. rewrite draw_circle_pixels.
  destruct (pixels_draw_paints _ (uint32_circle_cells x y r) p G)
    as (p' & E & P).
  exists p'. split; [exact E |].
  split; [exact (paints_geometry _ _ _ P G) |].
  eapply paints_iff; [| exact P]. intros a b _ _. apply In_circle_cells.
Qed.

Lemma draw_circle_paints_witness :
  exists p', ssd1306_draw_circle oled_128x64 20 20 5 = Some p' /\
             geometry_ok p' /\
             paints (fun a b => exists i j, 0 <= i < 5 /\ 0 <= j < 5 /\
                                  in_circle i j 5 = true /\
                                  In (a, b) (mirrors 20 20 i j))
                    oled_128x64 p'.
Proof. apply (draw_circle_paints oled_128x64 20 20 5 oled_128x64_geometry). Defined.



(** ** Clearing the whole buffer *)

Lemma read_repeat_0 n k :
  0 <= k < Z.of_nat n -> read (repeat 0 n) k = Some 0.
Proof.
  intros H. destruct (read_lt (repeat 0 n) k) as [b E];
    [rewrite repeat_length; exact H |].
  rewrite E. f_equal.
  destruct (read_Some_lt _ _ _ E) as (_ & _ & L).
  apply list_elem_of_lookup_2, list_elem_of_In, repeat_spec in L. exact L.
Qed.

Lemma clear_erases p :
  geometry_ok p ->
  exists p', ssd1306_clear p = Some p' /\
             buffer p' = repeat 0 (Z.to_nat (bufsize p)) /\
             erases (fun _ _ => True) p p'.
Proof.
  intros G. pose proof (geo_buffer p G) as Hlen.
  unfold ssd1306_clear. destruct (Z.ltb_spec (Z.of_nat (length (buffer p)))
                                    (bufsize p)); [lia |].
  rewrite drop_ge, app_nil_r by lia.
  eexists. split; [reflexivity |]. split; [reflexivity |].
  split.
  - split; [reflexivity |]. cbn. rewrite repeat_length. lia.
  - intros a b Ha Hb. rewrite (get_pixel_unfold p), get_pixel_unfold.
    change (buffer_xy (with_buffer p _) a b) with (buffer_xy p a b).
    destruct (buffer_xy p a b) as [[bx by']|]; [| reflexivity].
    cbn [mbind option_bind].
    change (width (with_buffer p _)) with (width p).
    change (height (with_buffer p _)) with (height p).
    destruct ((bx <? width p) && (by' <? height p)); [| reflexivity].
    change (byte_index (with_buffer p _) bx by') with (byte_index p bx by').
    change (buffer (with_buffer p ?l)) with l.
    destruct (read (buffer p) (byte_index p bx by')) as [b0|] eqn:R.
    + destruct (read_Some_lt _ _ _ R) as (H0 & Hlt & _).
      rewrite read_repeat_0 by lia. cbn [mbind option_bind].
      exists false. rewrite Z.testbit_0_l. split; [reflexivity |].
      split; [discriminate | tauto].
    + cbn [mbind option_bind].
      unfold read in *. destruct (byte_index p bx by' <? 0); [reflexivity |].
      apply lookup_ge_None in R. cbn [mbind option_bind].
      rewrite (proj2 (lookup_ge_None _ _)); [reflexivity |].
      rewrite repeat_length. lia.
Qed.



(** ** Repeated pixel calls *)

Lemma set_after_set k b :
  wrap8 (set_bit k (wrap8 (set_bit k b))) = wrap8 (set_bit k b).
Proof.
  unfold set_bit. rewrite !wrap8_land_ones.
  apply Z.bits_inj'. intros i Hi.
  repeat (rewrite Z.land_spec || rewrite Z.lor_spec).
  destruct (Z.testbit b i), (Z.testbit (Z.shiftl 1 (Z.land k 7)) i),
    (Z.testbit (Z.ones 8) i); reflexivity.
Qed.

Lemma clear_after_clear_bit k b :
  wrap8 (clear_bit k (wrap8 (clear_bit k b))) = wrap8 (clear_bit k b).
Proof.
  unfold clear_bit. rewrite !wrap8_land_ones.
  apply Z.bits_inj'. intros i Hi.
  repeat (rewrite Z.land_spec || rewrite Z.lnot_spec by exact Hi).
  destruct (Z.testbit b i), (Z.testbit (Z.shiftl 1 (Z.land k 7)) i),
    (Z.testbit (Z.ones 8) i); reflexivity.
Qed.

Lemma set_after_clear k b :
  wrap8 (set_bit k (wrap8 (clear_bit k b))) = wrap8 (set_bit k b).
Proof.
  unfold set_bit, clear_bit. rewrite !wrap8_land_ones.
  apply Z.bits_inj'. intros i Hi.
  repeat (rewrite Z.land_spec || rewrite Z.lor_spec
          || rewrite Z.lnot_spec by exact Hi).
  destruct (Z.testbit b i), (Z.testbit (Z.shiftl 1 (Z.land k 7)) i),
    (Z.testbit (Z.ones 8) i); reflexivity.
Qed.

(** Two modifications of the byte of [(x, y)] in a row are one. *)
Lemma modify_same_pixel p x y (f g h : Z -> Z -> Z) :
  (forall k b, wrap8 (g k (wrap8 (f k b))) = wrap8 (h k b)) ->
  (p1 ← ('(bx, by') ← buffer_xy p x y;
         if (bx <? width p) && (by' <? height p)
         then modify_byte p (byte_index p bx by') (f by') else Some p);
   '(bx, by') ← buffer_xy p1 x y;
   if (bx <? width p1) && (by' <? height p1)
   then modify_byte p1 (byte_index p1 bx by') (g by') else Some p1)
  = '(bx, by') ← buffer_xy p x y;
    if (bx <? width p) && (by' <? height p)
    then modify_byte p (byte_index p bx by') (h by') else Some p.
Proof.
  intros Hfg.
  destruct (buffer_xy p x y) as [[bx by']|] eqn:E; cbn [mbind option_bind];
    [| reflexivity].
  destruct ((bx <? width p) && (by' <? height p)) eqn:C.
  - set (idx := byte_index p bx by').
    transitivity (p1 ← modify_byte p idx (f by'); modify_byte p1 idx (g by')).
    + destruct (modify_byte p idx (f by')) as [p1|] eqn:M;
        cbn [mbind option_bind]; [| reflexivity].
      unfold modify_byte in M.
      destruct (read (buffer p) idx); cbn [mbind option_bind] in M;
        [| discriminate M].
      injection M as <-.
      rewrite buffer_xy_with_buffer, E. cbn [mbind option_bind].
      change (width (with_buffer p _)) with (width p).
      change (height (with_buffer p _)) with (height p).
      rewrite C. reflexivity.
    + rewrite modify_byte_twice. apply modify_byte_ext.
      intros b. apply Hfg.
  - cbn [mbind option_bind]. rewrite E. cbn [mbind option_bind].
    rewrite C. reflexivity.
Qed.

(** X8.  For every display and every coordinate: drawing a pixel twice is
    drawing it once, clearing it twice is clearing it once, and clearing
    then drawing is drawing. *)
Theorem pixel_calls_absorb (p : ssd1306_t) (x y : Z) :
  (p1 ← ssd1306_draw_pixel p x y; ssd1306_draw_pixel p1 x y)
    = ssd1306_draw_pixel p x y /\
  (p1 ← ssd1306_clear_pixel p x y; ssd1306_clear_pixel p1 x y)
    = ssd1306_clear_pixel p x y /\
  (p1 ← ssd1306_clear_pixel p x y; ssd1306_draw_pixel p1 x y)
    = ssd1306_draw_pixel p x y.
Proof.
  repeat split.
  - apply (modify_same_pixel p x y set_bit set_bit set_bit).
    intros. apply set_after_set.
  - apply (modify_same_pixel p x y clear_bit clear_bit clear_bit).
    intros. apply clear_after_clear_bit.
  - apply (modify_same_pixel p x y clear_bit set_bit set_bit).
    intros. apply set_after_clear.
Qed.

(** ** Lines *)

Lemma for_loop_guarded_pixels pixel (G : Z -> option Z) (u : Z -> Z) :
  forall n i p p',
    for_loop n i (fun k q => v ← G k; pixel q (u k) v) p = Some p' ->
    for_loop n i (fun k q => v ← G k; pixel q (u k) v) p
    = pixels pixel (map (fun k => (u k, default 0 (G k))) (counters n i)) p
    /\ forall k, In k (counters n i) -> is_Some (G k).
Proof.
  induction n as [|n IH]; intros i p p'; cbn [for_loop counters map pixels].
  - intros _. split; [reflexivity | intros k []].
  - destruct (G i) as [v|] eqn:Ev;
      cbn [mbind option_bind default from_option id]; [| discriminate].
    destruct (pixel p (u i) v) as [q|]; cbn [mbind option_bind];
      [| discriminate].
    intros H. destruct (IH _ _ _ H) as [E Hs]. split; [exact E |].
    intros k [<- | Hk]; [rewrite Ev; eauto | apply Hs, Hk].
Qed.

Lemma for_loop_ext body body' :
  (forall k q, body k q = body' k q) ->
  forall n i p, for_loop n i body p = for_loop n i body' p.
Proof.
  intros H. induction n as [|n IH]; intros i p; cbn [for_loop].
  - reflexivity.
  - rewrite H. destruct (body' i p); cbn [mbind option_bind];
      [apply IH | reflexivity].
Qed.

Lemma for_le_Some lo hi body p p' :
  for_le lo hi body p = Some p' ->
  for_loop (Z.to_nat (hi - lo + 1)) lo body p = Some p'.
Proof.
  unfold for_le. destruct (for_loop _ lo body p) as [q|];
    cbn [mbind option_bind]; [| discriminate].
  destruct ((lo <=? hi) && (hi =? INT32_MAX)); [discriminate | tauto].
Qed.

Lemma to_uint32_range f z : F32.to_uint32 f = Some z -> is_uint32 z.
Proof.
  unfold F32.to_uint32. destruct (F32.trunc f) as [t|];
    cbn [mbind option_bind]; [| discriminate].
  destruct (Z.leb_spec 0 t), (Z.ltb_spec t (2 ^ 32)); cbn [andb];
    try discriminate.
  intros [= <-]. split; assumption.
Qed.

(** X9.  On a display that satisfies the invariant, a vertical line given
    top to bottom ([x1 = x2], [y1 <= y2 < INT32_MAX]) always returns, and
    the result satisfies the invariant again; it sets exactly the existing pixels [(x, i)], [y1 <= i <= y2], and
    changes nothing else. *)
Theorem vertical_line_paints (p : ssd1306_t) (x y1 y2 : Z) :
  geometry_ok p -> y1 <= y2 -> y2 < INT32_MAX ->
  exists p', ssd1306_draw_line p x y1 x y2 = Some p' /\ geometry_ok p' /\
             paints (fun a b => a = wrap32 x /\
                                exists i, y1 <= i <= y2 /\ b = wrap32 i)
                    p p'.
Proof.
  intros G Hle Hmax. rewrite draw_line_upwards by lia.
  rewrite (for_loop_pixels ssd1306_draw_pixel _
             (fun i => [(wrap32 x, wrap32 i)]))
    by (intros; symmetry; apply pixels_one).
  destruct (pixels_draw_paints
              (flat_map (fun i => [(wrap32 x, wrap32 i)])
                        (counters (Z.to_nat (y2 - y1 + 1)) y1))) with (p := p)
    as (p' & E & P); [| exact G |].
  { apply uint32_flat_map. intros i. constructor; [| constructor].
    split; apply wrap32_range. }
  exists p'. split; [exact E |].
  split; [exact (paints_geometry _ _ _ P G) |].
  eapply paints_iff; [| exact P]. intros a b _ _.
  rewrite in_flat_map. split.
  - intros (i & Hi & [[= <- <-] | []]). apply In_counters in Hi.
    split; [reflexivity |]. exists i. split; [lia | reflexivity].
  - intros (-> & i & Hi & ->). exists i.
    split; [apply In_counters; lia | left; reflexivity].
Qed.

Lemma vertical_line_paints_witness :
  exists p', ssd1306_draw_line oled_128x64 3 60 3 70 = Some p' /\
             geometry_ok p' /\
             paints (fun a b => a = wrap32 3 /\
                                exists i, 60 <= i <= 70 /\ b = wrap32 i)
                    oled_128x64 p'.
Proof.
  apply (vertical_line_paints oled_128x64 3 60 70 oled_128x64_geometry).
  - lia.
  - unfold INT32_MAX. lia.
Defined.

(** X10.  A line with [x1 < x2] goes through the slope computation.
    Whenever it returns on a display that satisfies the invariant, the
    result satisfies the invariant and one pixel at most was set in each
    column: the columns [x1 .. x2] are
    distinct in [uint32_t], and there is a sample [f] such that exactly the
    existing pixels [(i, f i)], [x1 <= i <= x2], were set, and nothing else
    has changed. *)
Theorem sloped_line_one_per_column (p p' : ssd1306_t) (x1 y1 x2 y2 : Z) :
  geometry_ok p -> x1 < x2 ->
  ssd1306_draw_line p x1 y1 x2 y2 = Some p' ->
  geometry_ok p' /\
  (forall i i', x1 <= i <= x2 -> x1 <= i' <= x2 ->
                wrap32 i = wrap32 i' -> i = i') /\
  exists f : Z -> Z,
    paints (fun a b => exists i, x1 <= i <= x2 /\ a = wrap32 i /\ b = f i)
           p p'.
Proof.
  intros G Hlt. unfold ssd1306_draw_line.
  cbn [load new_frame swap store line_var_eqb].
  destruct (Z.gtb_spec x1 x2); [lia |].
  cbn [load new_frame swap store line_var_eqb].
  destruct (Z.eqb_spec x1 x2); [lia |].
  destruct (int32_checked (y2 - y1)) as [dy|]; cbn [mbind option_bind];
    [| discriminate].
  destruct (int32_checked (x2 - x1)) as [dx|] eqn:Edx;
    cbn [mbind option_bind]; [| discriminate].
  intros Hrun.
  cut ((forall i i', x1 <= i <= x2 -> x1 <= i' <= x2 ->
                     wrap32 i = wrap32 i' -> i = i') /\
       exists f : Z -> Z,
         paints (fun a b => exists i, x1 <= i <= x2 /\ a = wrap32 i /\ b = f i)
                p p').
  { intros (Hinj & f & P). split; [exact (paints_geometry _ _ _ P G) |].
    split; [exact Hinj | exists f; exact P]. }
  split.
  { unfold int32_checked, in_int32, INT32_MIN, INT32_MAX in Edx.
    destruct (Z.leb_spec (x2 - x1) (2 ^ 31 - 1));
      [| rewrite andb_false_r in Edx; discriminate Edx].
    intros i i' Hi Hi' E. unfold wrap32 in E.
    assert ((i - i') mod 2 ^ 32 = 0) as Hm
        by (rewrite Zminus_mod, E, Z.sub_diag; reflexivity).
    apply Z.mod_divide in Hm; [| lia]. destruct Hm as [k Hk].
    assert (k = 0) by lia. lia. } apply for_le_Some in Hrun.
  set (slope := F32.div (F32.of_int dy) (F32.of_int dx)) in *.
  set (G' := fun i : Z =>
               d ← int32_checked (i - x1);
               F32.to_uint32 (F32.add (F32.mul slope (F32.of_int d))
                                      (F32.of_int y1))).
  assert (for_loop (Z.to_nat (x2 - x1 + 1)) x1
            (fun k q => v ← G' k; ssd1306_draw_pixel q (wrap32 k) v) p
          = Some p') as H'.
  { rewrite <- Hrun. apply for_loop_ext. intros k q. unfold G'.
    destruct (int32_checked (k - x1)); reflexivity. }
  destruct (for_loop_guarded_pixels _ _ _ _ _ _ _ H') as [E Hs].
  rewrite E in H'. clear E Hrun.
  exists (fun i => default 0 (G' i)).
  destruct (pixels_draw_paints
              (map (fun k => (wrap32 k, default 0 (G' k)))
                   (counters (Z.to_nat (x2 - x1 + 1)) x1))) with (p := p)
    as (q & E & P); [| exact G |].
  { unfold uint32_cells. apply List.Forall_forall. intros [a b] Hin.
    apply in_map_iff in Hin as (k & [= <- <-] & Hk). cbn [fst snd].
    split; [apply wrap32_range |].
    destruct (Hs k Hk) as [v Ev]. rewrite Ev. cbn [default from_option].
    unfold G' in Ev. destruct (int32_checked (k - x1));
      cbn [mbind option_bind] in Ev; [| discriminate].
    eapply to_uint32_range, Ev. }
  rewrite E in H'. injection H' as ->.
  eapply paints_iff; [| exact P]. intros a b _ _.
  rewrite in_map_iff. split.
  - intros (k & [= <- <-] & Hk). apply In_counters in Hk.
    exists k. split; [lia | split; reflexivity].
  - intros (i & Hi & -> & ->). exists i.
    split; [reflexivity | apply In_counters; lia].
Qed.

Lemma sloped_line_one_per_column_witness :
  geometry_ok (default blank (ssd1306_draw_line oled_128x64 0 0 10 7)) /\
  (forall i i', 0 <= i <= 10 -> 0 <= i' <= 10 ->
                wrap32 i = wrap32 i' -> i = i') /\
  exists f : Z -> Z,
    paints (fun a b => exists i, 0 <= i <= 10 /\ a = wrap32 i /\ b = f i)
           oled_128x64
           (default blank (ssd1306_draw_line oled_128x64 0 0 10 7)).
Proof.
  apply (sloped_line_one_per_column oled_128x64 _ 0 0 10 7
           oled_128x64_geometry).
  - lia.
  - vm_compute. reflexivity.
Defined.

(** ** Strings *)

(** X11.  The characters after the first NUL of the array are never drawn:
    a string followed by NUL and anything else is drawn as the string. *)
Theorem string_stops_at_nul (p : ssd1306_t) (x y scale : Z)
    (font s1 s2 : list Z) :
  ssd1306_draw_string_with_font p x y scale font (s1 ++ 0 :: s2)
  = ssd1306_draw_string_with_font p x y scale font s1.
Proof.
  unfold ssd1306_draw_string_with_font. generalize (to_int32 x) as x_n.
  revert p. induction s1 as [|c s1 IH]; intros p x_n;
    cbn [draw_string_loop app].
  - reflexivity.
  - destruct (c =? 0); [reflexivity |].
    destruct (ssd1306_draw_char_with_font p (wrap32 x_n) y scale font c);
      cbn [mbind option_bind]; [| reflexivity].
    destruct (read font 1); cbn [mbind option_bind]; [| reflexivity].
    destruct (read font 2); cbn [mbind option_bind]; [| reflexivity].
    apply IH.
Qed.

Lemma c_string_app s1 s2 :
  List.Forall (fun c => c <> 0) s1 -> c_string (s1 ++ s2) = s1 ++ c_string s2.
Proof.
  induction 1 as [|c s1 Hc _ IH]; cbn [c_string app].
  - reflexivity.
  - destruct (Z.eqb_spec c 0); [contradiction |]. rewrite IH. reflexivity.
Qed.

Lemma draw_chars_from_app n l1 l2 x y scale advance font p :
  draw_chars_from n (l1 ++ l2) x y scale advance font p
  = p1 ← draw_chars_from n l1 x y scale advance font p;
    draw_chars_from (n + length l1) l2 x y scale advance font p1.
Proof.
  revert n p. induction l1 as [|c l1 IH]; intros n p;
    cbn [draw_chars_from app length].
  - rewrite Nat.add_0_r. reflexivity.
  - destruct (ssd1306_draw_char_with_font p _ y scale font c) as [p1|];
      cbn [mbind option_bind]; [| reflexivity].
    rewrite IH. replace (S n + length l1)%nat with (n + S (length l1))%nat
      by lia. reflexivity.
Qed.

Lemma draw_chars_from_shift k n l x y scale advance font p :
  draw_chars_from n l (x + Z.of_nat k * advance) y scale advance font p
  = draw_chars_from (n + k) l x y scale advance font p.
Proof.
  revert n p. induction l as [|c l IH]; intros n p; cbn [draw_chars_from].
  - reflexivity.
  - replace (x + Z.of_nat k * advance + Z.of_nat n * advance)
      with (x + Z.of_nat (n + k) * advance) by lia.
    destruct (ssd1306_draw_char_with_font p _ y scale font c) as [p1|];
      cbn [mbind option_bind]; [| reflexivity].
    apply (IH (S n)).
Qed.

(** X12.  Drawing the concatenation of two strings is drawing the first
    and then the second with its start moved right by
    [(font[1] + font[2]) * scale] for each character of the first. *)
Theorem string_concat (p : ssd1306_t) (x y scale : Z)
    (font s1 s2 : list Z) (f1 f2 : Z) :
  read font 1 = Some f1 -> read font 2 = Some f2 ->
  List.Forall (fun c => c <> 0) s1 ->
  ssd1306_draw_string_with_font p x y scale font (s1 ++ s2)
  = p1 ← ssd1306_draw_string_with_font p x y scale font s1;
    ssd1306_draw_string_with_font p1
      (x + Z.of_nat (length s1) * ((f1 + f2) * scale)) y scale font s2.
Proof.
  intros R1 R2 Hs1. unfold ssd1306_draw_string_with_font.
  rewrite (draw_string_loop_spec font f1 f2 y scale (s1 ++ s2) R1 R2 0 x)
    by (rewrite wrap32_to_int32; f_equal; lia).
  rewrite (draw_string_loop_spec font f1 f2 y scale s1 R1 R2 0 x)
    by (rewrite wrap32_to_int32; f_equal; lia).
  rewrite c_string_app by exact Hs1.
  rewrite <- (app_nil_r s1) at 2. rewrite (c_string_app s1 []) by exact Hs1.
  cbn [c_string]. rewrite app_nil_r.
  rewrite draw_chars_from_app.
  destruct (draw_chars_from 0 s1 x y scale _ font p) as [p1|];
    cbn [mbind option_bind]; [| reflexivity].
  rewrite (draw_string_loop_spec font f1 f2 y scale s2 R1 R2 0
             (x + Z.of_nat (length s1) * ((f1 + f2) * scale)))
    by (rewrite wrap32_to_int32; f_equal; lia).
  rewrite draw_chars_from_shift. reflexivity.
Qed.

Lemma string_concat_witness :
  ssd1306_draw_string_with_font oled_128x64 0 0 1 font_A ([65; 66] ++ [65])
  = p1 ← ssd1306_draw_string_with_font oled_128x64 0 0 1 font_A [65; 66];
    ssd1306_draw_string_with_font p1
      (0 + Z.of_nat (length [65; 66]) * ((2 + 1) * 1)) 0 1 font_A [65].
Proof.
  apply (string_concat oled_128x64 0 0 1 font_A [65; 66] [65] 2 1
           eq_refl eq_refl).
  repeat constructor; lia.
Defined.

(** ** Glyphs *)

Lemma for_loop_pixels_in pixel body (F : Z -> list (Z * Z)) :
  forall n i p,
    (forall k q, i <= k < i + Z.of_nat n -> body k q = pixels pixel (F k) q) ->
    for_loop n i body p = pixels pixel (flat_map F (counters n i)) p.
Proof.
  induction n as [|n IH]; intros i p HF; cbn [for_loop counters flat_map].
  - reflexivity.
  - rewrite pixels_app, HF by lia.
    destruct (pixels pixel (F i) p) as [q|]; cbn [mbind option_bind];
      [| reflexivity].
    apply IH. intros k q' Hk. apply HF. lia.
Qed.

Lemma land_1_testbit a : (Z.land a 1 =? 0) = negb (Z.testbit a 0).
Proof.
  change 1 with (Z.ones 1). rewrite Z.land_ones by lia.
  change (2 ^ 1) with 2. rewrite <- Z.bit0_mod.
  destruct (Z.testbit a 0); reflexivity.
Qed.

Lemma glyph_bits_pixels line0 x y scale w lp :
  forall n j p, 0 <= j ->
    glyph_bits n j (Z.shiftr line0 j) x y scale w lp p
    = pixels ssd1306_draw_pixel
        (flat_map (fun k =>
           if Z.testbit line0 k
           then square_cells (wrap32 (x + w * scale))
                  (wrap32 (y + (Z.shiftl lp 3 + k) * scale)) scale scale
           else [])
           (counters n j)) p.
Proof.
  induction n as [|n IH]; intros j p Hj; cbn [glyph_bits counters flat_map].
  - reflexivity.
  - rewrite pixels_app, land_1_testbit, Z.shiftr_spec by lia.
    rewrite Z.add_0_l.
    rewrite Z.shiftr_shiftr by lia.
    destruct (Z.testbit line0 j); cbn [negb pixels].
    + rewrite draw_square_pixels.
      destruct (pixels ssd1306_draw_pixel _ p) as [q|];
        cbn [mbind option_bind]; [| reflexivity].
      apply IH. lia.
    + cbn [mbind option_bind]. apply IH. lia.
Qed.

Lemma glyph_byte_pixels line x y scale w lp p :
  glyph_bits 8 0 line x y scale w lp p
  = pixels ssd1306_draw_pixel (byte_cells line x y scale w lp) p.
Proof.
  rewrite <- (Z.shiftr_0_r line) at 1. apply glyph_bits_pixels. lia.
Qed.

Lemma parts_per_line_range f0 :
  is_uint8 f0 -> 0 <= parts_per_line f0 <= 32.
Proof.
  unfold is_uint8, parts_per_line. intros H.
  rewrite Z.shiftr_div_pow2 by lia. change (2 ^ 3) with 8.
  change (2 ^ 8) with 256 in H.
  assert (0 <= f0 / 8 < 32)
    by (split; [apply Z.div_pos; lia | apply Z.div_lt_upper_bound; lia]).
  destruct (Z.land f0 7 >? 0); lia.
Qed.

Section Glyph.

Variables (font : list Z) (f0 f1 f3 f4 c : Z).
Hypotheses (R0 : read font 0 = Some f0) (R1 : read font 1 = Some f1)
           (R3 : read font 3 = Some f3) (R4 : read font 4 = Some f4).
Hypotheses (B0 : is_uint8 f0) (B1 : is_uint8 f1) (B3 : is_uint8 f3).
Hypothesis Hc : f3 <= c <= f4.
Hypothesis Hc8 : is_uint8 c.
(** The block of the glyph of [c] lies inside the font. *)
Hypothesis Hfont :
  5 + (c - f3 + 1) * f1 * parts_per_line f0 <= Z.of_nat (length font).

Lemma glyph_index w lp :
  0 <= w < f1 -> 0 <= lp < parts_per_line f0 ->
  wrap32 (wrap32 ((c - f3) * f1 * parts_per_line f0
                  + w * parts_per_line f0 + 5) + lp)
  = (c - f3) * f1 * parts_per_line f0 + w * parts_per_line f0 + 5 + lp
  /\ 0 <= (c - f3) * f1 * parts_per_line f0 + w * parts_per_line f0 + 5 + lp
       < Z.of_nat (length font).
Proof.
  intros Hw Hlp. pose proof (parts_per_line_range f0 B0) as Hp.
  unfold is_uint8 in *. change (2 ^ 8) with 256 in *.
  set (P := parts_per_line f0) in *.
  assert (0 <= (c - f3) * f1 * P + w * P + 5 + lp
          < 5 + (c - f3 + 1) * f1 * P) as Hi by nia.
  split; [| lia].
  rewrite wrap32_add_l. apply wrap32_small.
  change (2 ^ 32) with 4294967296.
  assert ((c - f3 + 1) * f1 * P <= 256 * 256 * 32) by nia. lia.
Qed.

Lemma draw_char_pixels p x y scale :
  ssd1306_draw_char_with_font p x y scale font c
  = pixels ssd1306_draw_pixel (glyph_cells font x y scale c f0 f1 f3) p.
Proof.
  unfold ssd1306_draw_char_with_font. rewrite R3. cbn [mbind option_bind].
  destruct (Z.ltb_spec c f3); [lia |].
  rewrite R4. cbn [mbind option_bind].
  destruct (Z.gtb_spec c f4); [lia |].
  rewrite R0. cbn [mbind option_bind]. rewrite R1. cbn [mbind option_bind].
  fold (parts_per_line f0). unfold for_lt, glyph_cells.
  apply for_loop_pixels_in. intros w q Hw.
  apply for_loop_pixels_in. intros lp q' Hlp.
  destruct (glyph_index w lp) as [Ei Hi];
    [lia | pose proof (parts_per_line_range f0 B0); lia |].
  rewrite Ei. destruct (read_lt font _ Hi) as [line ->].
  cbn [mbind option_bind default from_option id].
  apply glyph_byte_pixels.
Qed.

Lemma uint32_glyph_cells x y scale :
  uint32_cells (glyph_cells font x y scale c f0 f1 f3).
Proof.
  unfold glyph_cells, byte_cells.
  apply uint32_flat_map. intros w. apply uint32_flat_map. intros lp.
  apply uint32_flat_map. intros j.
  destruct (Z.testbit _ j); [apply uint32_square_cells | constructor].
Qed.

Lemma In_glyph_cells x y scale a b :
  In (a, b) (glyph_cells font x y scale c f0 f1 f3)
  <-> exists w lp j line dx dy,
        0 <= w < f1 /\ 0 <= lp < parts_per_line f0 /\ 0 <= j < 8 /\
        read font ((c - f3) * f1 * parts_per_line f0
                   + w * parts_per_line f0 + 5 + lp) = Some line /\
        Z.testbit line j = true /\
        0 <= dx < scale /\ 0 <= dy < scale /\
        a = wrap32 (x + w * scale + dx) /\
        b = wrap32 (y + (8 * lp + j) * scale + dy).
Proof.
  pose proof (parts_per_line_range f0 B0) as Hp.
  unfold glyph_cells, byte_cells. rewrite in_flat_map. split.
  - intros (w & Hw & H). apply in_flat_map in H as (lp & Hlp & H).
    apply in_flat_map in H as (j & Hj & H).
    apply In_counters_lt in Hw, Hlp. apply In_counters in Hj.
    destruct (glyph_index w lp Hw Hlp) as [Ei Hi]. rewrite Ei in H.
    destruct (read_lt font _ Hi) as [line Rl]. rewrite Rl in H.
    cbn [default from_option id] in H.
    destruct (Z.testbit line j) eqn:Tj; [| destruct H].
    apply In_square_cells in H as (dx & dy & Hdx & Hdy & -> & ->).
    exists w, lp, j, line, dx, dy.
    rewrite !wrap32_add_l, Z.shiftl_mul_pow2 by lia.
    repeat split; try assumption; try lia.
    f_equal. change (2 ^ 3) with 8. lia.
  - intros (w & lp & j & line & dx & dy & Hw & Hlp & Hj & Rl & Tj
            & Hdx & Hdy & -> & ->).
    exists w. split; [apply In_counters_lt; exact Hw |].
    apply in_flat_map. exists lp. split; [apply In_counters_lt; exact Hlp |].
    apply in_flat_map. exists j. split; [apply In_counters; lia |].
    destruct (glyph_index w lp Hw Hlp) as [Ei _]. rewrite Ei, Rl.
    cbn [default from_option id]. rewrite Tj.
    apply In_square_cells. exists dx, dy.
    rewrite !wrap32_add_l, Z.shiftl_mul_pow2 by lia.
    repeat split; try assumption; try lia.
    f_equal. change (2 ^ 3) with 8. lia.
Qed.

Lemma draw_char_paints p x y scale :
  geometry_ok p ->
  exists p', ssd1306_draw_char_with_font p x y scale font c = Some p' /\
    paints (fun a b =>
              exists w lp j line dx dy,
                0 <= w < f1 /\ 0 <= lp < parts_per_line f0 /\ 0 <= j < 8 /\
                read font ((c - f3) * f1 * parts_per_line f0
                           + w * parts_per_line f0 + 5 + lp) = Some line /\
                Z.testbit line j = true /\
                0 <= dx < scale /\ 0 <= dy < scale /\
                a = wrap32 (x + w * scale + dx) /\
                b = wrap32 (y + (8 * lp + j) * scale + dy))
           p p'.
Proof.
  intros G. rewrite draw_char_pixels.
  destruct (pixels_draw_paints _ (uint32_glyph_cells x y scale) p G)
    as (p' & E & P).
  exists p'. split; [exact E |].
  eapply paints_iff; [| exact P]. intros a b _ _. apply In_glyph_cells.
Qed.

End Glyph.

(** ** Bitmaps *)

Lemma lxor_low_bits a : 0 <= a -> Z.lxor a (Z.land a 3) = 4 * (a / 4).
Proof.
  intros Ha.
  assert (4 * (a / 4) = Z.shiftl (Z.shiftr a 2) 2) as ->.
  { rewrite Z.shiftl_mul_pow2, Z.shiftr_div_pow2 by lia.
    change (2 ^ 2) with 4. lia. }
  apply Z.bits_inj'. intros i Hi.
  rewrite Z.lxor_spec, Z.land_spec, Z.shiftl_spec by exact Hi.
  change 3 with (Z.ones 2). rewrite Z.testbit_ones_nonneg by lia.
  destruct (Z.ltb_spec i 2).
  - rewrite (Z.testbit_neg_r (Z.shiftr a 2)) by lia.
    destruct (Z.testbit a i); reflexivity.
  - rewrite Z.shiftr_spec by lia. replace (i - 2 + 2) with i by lia.
    destruct (Z.testbit a i); reflexivity.
Qed.

Lemma bmp_bytes_per_line_covers biWidth x :
  is_uint32 biWidth -> 0 <= x < biWidth ->
  0 <= Z.shiftr x 3 < bmp_bytes_per_line biWidth.
Proof.
  unfold is_uint32. intros Hw Hx. change (2 ^ 32) with 4294967296 in Hw.
  rewrite Z.shiftr_div_pow2 by lia. change (2 ^ 3) with 8.
  unfold bmp_bytes_per_line. rewrite land_7_mod.
  set (base := biWidth / 8 + (if biWidth mod 8 =? 0 then 0 else 1)).
  pose proof (Z.div_mod biWidth 8). pose proof (Z.mod_pos_bound biWidth 8).
  pose proof (Z.div_mod x 8). pose proof (Z.mod_pos_bound x 8).
  assert (0 <= x / 8 < base) as Hb.
  { unfold base. destruct (Z.eqb_spec (biWidth mod 8) 0); lia. }
  assert (base <= 536870912) by (unfold base; destruct (_ =? 0); lia).
  destruct (Z.land base 3 =? 0); [exact Hb |].
  rewrite lxor_low_bits by lia.
  pose proof (Z.div_mod base 4). pose proof (Z.mod_pos_bound base 4).
  rewrite wrap32_small by (change (2 ^ 32) with 4294967296; lia). lia.
Qed.

Lemma bmp_bytes_per_line_nonneg biWidth :
  is_uint32 biWidth -> 0 <= bmp_bytes_per_line biWidth.
Proof.
  intros Hw. unfold bmp_bytes_per_line.
  destruct (Z.land _ 3 =? 0).
  - unfold is_uint32 in Hw. pose proof (Z.div_pos biWidth 8).
    destruct (_ =? 0); lia.
  - apply wrap32_range.
Qed.

Lemma bmp_row_pixels data img biWidth cv xo yo y p :
  is_uint32 biWidth -> 0 <= img ->
  img + bmp_bytes_per_line biWidth <= Z.of_nat (length data) ->
  bmp_row data img biWidth cv xo yo y p
  = pixels ssd1306_draw_pixel (bmp_row_cells data img biWidth cv xo yo y) p.
Proof.
  intros Hw Hi Hlen. unfold bmp_row, bmp_row_cells, for_lt.
  apply for_loop_pixels_in. intros x q Hx.
  pose proof (bmp_bytes_per_line_covers biWidth x Hw ltac:(lia)) as Hc.
  destruct (read_lt data (img + Z.shiftr x 3)) as [b ->]; [lia |].
  cbn [mbind option_bind default from_option id].
  destruct (_ =? cv); [symmetry; apply pixels_one | reflexivity].
Qed.

Lemma bmp_rows_pixels data bpl biWidth cv xo yo step img0 y0 :
  is_uint32 biWidth -> 0 <= img0 -> bpl = bmp_bytes_per_line biWidth ->
  forall n k p,
    img0 + (Z.of_nat k + Z.of_nat n) * bpl <= Z.of_nat (length data) ->
    bmp_rows n data (img0 + Z.of_nat k * bpl) bpl biWidth cv xo yo
             (wrap32 (y0 + Z.of_nat k * step)) step p
    = pixels ssd1306_draw_pixel
        (flat_map (fun r =>
           bmp_row_cells data (img0 + r * bpl) biWidth cv xo yo
                         (wrap32 (y0 + r * step)))
           (counters n (Z.of_nat k))) p.
Proof.
  intros Hw Hi ->. pose proof (bmp_bytes_per_line_nonneg biWidth Hw) as Hb.
  induction n as [|n IH]; intros k p Hlen; cbn [bmp_rows counters flat_map].
  - reflexivity.
  - rewrite pixels_app, bmp_row_pixels by (try assumption; nia).
    destruct (pixels ssd1306_draw_pixel _ p) as [q|]; cbn [mbind option_bind];
      [| reflexivity].
    specialize (IH (S k) q).
    replace (Z.of_nat (S k)) with (Z.of_nat k + 1) in IH by lia.
    rewrite <- IH by lia. f_equal; [lia |].
    rewrite wrap32_add_l. f_equal. lia.
Qed.

Lemma bmp_get_val_4_range data offset v :
  ssd1306_bmp_get_val data offset 4 = Some v -> is_uint32 v.
Proof.
  unfold ssd1306_bmp_get_val.
  destruct (read data offset); cbn [mbind option_bind]; [| discriminate].
  destruct (read data (offset + 1)); cbn [mbind option_bind]; [| discriminate].
  destruct (read data (offset + 2)); cbn [mbind option_bind]; [| discriminate].
  destruct (read data (offset + 3)); cbn [mbind option_bind]; [| discriminate].
  intros [= <-]. apply wrap32_range.
Qed.

Lemma In_bmp_row_cells data img biWidth cv xo yo y a b :
  In (a, b) (bmp_row_cells data img biWidth cv xo yo y)
  <-> exists x, 0 <= x < biWidth /\
        Z.land (Z.shiftr (default 0 (read data (img + Z.shiftr x 3)))
                         (7 - Z.land x 7)) 1 = cv /\
        a = wrap32 (xo + x) /\ b = wrap32 (yo + y).
Proof.
  unfold bmp_row_cells. rewrite in_flat_map. split.
  - intros (x & Hx & H). apply In_counters_lt in Hx.
    destruct (Z.eqb_spec (Z.land (Z.shiftr (default 0
                (read data (img + Z.shiftr x 3))) (7 - Z.land x 7)) 1) cv)
      as [E|]; [| destruct H].
    destruct H as [[= <- <-] | []]. eauto.
  - intros (x & Hx & E & -> & ->). exists x.
    split; [apply In_counters_lt; exact Hx |].
    rewrite (proj2 (Z.eqb_eq _ _) E). left. reflexivity.
Qed.

Section Bitmap.

Variables (data : list Z) (size x_offset y_offset : Z).
Variables (bfOffBits biSize biWidth height32 color_val : Z).
Hypothesis Hsize : 54 <= size.
Hypothesis E10 : ssd1306_bmp_get_val data 10 4 = Some bfOffBits.
Hypothesis E14 : ssd1306_bmp_get_val data 14 4 = Some biSize.
Hypothesis E18 : ssd1306_bmp_get_val data 18 4 = Some biWidth.
Hypothesis E22 : ssd1306_bmp_get_val data 22 4 = Some height32.
Hypothesis E28 : wrap16 <$> ssd1306_bmp_get_val data 28 2 = Some 1.
Hypothesis E30 : ssd1306_bmp_get_val data 30 4 = Some 0.
Hypothesis Ecv : bmp_color_val data (to_int32 (14 + biSize)) = Some color_val.
Hypothesis Hmin : to_int32 height32 <> INT32_MIN.
(** The rows of the image lie inside the array. *)
Hypothesis Hrows :
  bfOffBits + Z.abs (to_int32 height32) * bmp_bytes_per_line biWidth
  <= Z.of_nat (length data).

Lemma to_int32_range z : INT32_MIN <= to_int32 z <= INT32_MAX.
Proof.
  unfold to_int32, INT32_MIN, INT32_MAX. pose proof (wrap32_range z).
  destruct (Z.ltb_spec (wrap32 z) (2 ^ 31)); lia.
Qed.

Lemma bmp_show_pixels p :
  ssd1306_bmp_show_image_with_offset p data size x_offset y_offset
  = pixels ssd1306_draw_pixel
      (flat_map (fun r =>
         bmp_row_cells data (bfOffBits + r * bmp_bytes_per_line biWidth)
           biWidth color_val x_offset y_offset
           (wrap32 ((if to_int32 height32 >? 0 then to_int32 height32 - 1
                     else 0)
                    + r * (if to_int32 height32 >? 0 then -1 else 1))))
         (counters (Z.to_nat (Z.abs (to_int32 height32))) 0)) p.
Proof.
  pose proof (bmp_get_val_4_range _ _ _ E10) as Hoff.
  pose proof (bmp_get_val_4_range _ _ _ E18) as Hw.
  pose proof (to_int32_range height32) as Hh.
  unfold ssd1306_bmp_show_image_with_offset.
  destruct (Z.ltb_spec size 54); [lia |].
  rewrite E10, E14, E18, E22. cbn [mbind option_bind fmap option_fmap option_map].
  destruct (ssd1306_bmp_get_val data 28 2) as [bc|];
    cbn [fmap option_fmap option_map] in E28; [| discriminate E28].
  injection E28 as E28'.
  cbn [mbind option_bind fmap option_fmap option_map].
  rewrite E28', E30. cbn [mbind option_bind negb Z.eqb Pos.eqb].
  rewrite Ecv. cbn [mbind option_bind].
  fold (bmp_bytes_per_line biWidth).
  set (bh := to_int32 height32) in *.
  set (bpl := bmp_bytes_per_line biWidth) in *.
  assert ((if bh >? 0 then Some (-1) else int32_checked (- bh))
          = Some (if bh >? 0 then -1 else - bh)) as ->.
  { destruct (Z.gtb_spec bh 0); [reflexivity |].
    unfold int32_checked, in_int32, INT32_MIN, INT32_MAX in *.
    destruct (Z.leb_spec (- 2 ^ 31) (- bh)), (Z.leb_spec (- bh) (2 ^ 31 - 1));
      cbn [andb]; try reflexivity; lia. }
  cbn [mbind option_bind].
  assert ((if bh >? 0 then bh
           else wrap32 (if bh >? 0 then -1 else - bh)) = Z.abs bh) as ->.
  { destruct (Z.gtb_spec bh 0); [lia |].
    rewrite wrap32_small; unfold INT32_MIN, INT32_MAX in *; lia. }
  pose proof (bmp_rows_pixels data bpl biWidth color_val x_offset y_offset
                (if bh >? 0 then -1 else 1) bfOffBits
                (if bh >? 0 then bh - 1 else 0) Hw (proj1 Hoff) eq_refl
                (Z.to_nat (Z.abs bh)) 0%nat p) as Hflat.
  change (Z.of_nat 0) with 0 in Hflat.
  rewrite Z.mul_0_l, !Z.add_0_r in Hflat.
  rewrite <- Hflat by (rewrite Z2Nat.id by lia; exact Hrows). f_equal.
  destruct (bh >? 0); reflexivity.
Qed.

Lemma bmp_show_paints p :
  geometry_ok p ->
  exists p',
    ssd1306_bmp_show_image_with_offset p data size x_offset y_offset = Some p'
    /\ paints (fun a b =>
         exists r x byte,
           0 <= r < Z.abs (to_int32 height32) /\ 0 <= x < biWidth /\
           read data (bfOffBits + r * bmp_bytes_per_line biWidth
                      + Z.shiftr x 3) = Some byte /\
           Z.land (Z.shiftr byte (7 - Z.land x 7)) 1 = color_val /\
           a = wrap32 (x_offset + x) /\
           b = wrap32 (y_offset
                       + (if to_int32 height32 >? 0
                          then to_int32 height32 - 1 - r else r)))
         p p'.
Proof.
  intros G. rewrite bmp_show_pixels.
  pose proof (bmp_get_val_4_range _ _ _ E10) as Hoff.
  pose proof (bmp_get_val_4_range _ _ _ E18) as Hw.
  pose proof (bmp_bytes_per_line_nonneg biWidth Hw) as Hb.
  match goal with
  | |- context [pixels ssd1306_draw_pixel ?l p] =>
      destruct (pixels_draw_paints l) with (p := p) as (p' & E & P);
        [| exact G |]
  end.
  { apply uint32_flat_map. intros r. unfold bmp_row_cells.
    apply uint32_flat_map. intros x.
    destruct (_ =? color_val); [| constructor].
    constructor; [| constructor]. split; apply wrap32_range. }
  exists p'. split; [exact E |].
  eapply paints_iff; [| exact P]. intros a b _ _.
  rewrite in_flat_map. split.
  - intros (r & Hr & H). apply In_counters_lt in Hr.
    apply In_bmp_row_cells in H as (x & Hx & Et & -> & ->).
    pose proof (bmp_bytes_per_line_covers biWidth x Hw Hx) as Hc.
    destruct (read_lt data (bfOffBits + r * bmp_bytes_per_line biWidth
                            + Z.shiftr x 3)) as [byte Rb];
      [unfold is_uint32 in Hoff; nia |].
    rewrite Rb in Et. cbn [default from_option id] in Et.
    exists r, x, byte. repeat split; try assumption; try lia.
    rewrite wrap32_add_r. f_equal.
    destruct (to_int32 height32 >? 0); lia.
  - intros (r & x & byte & Hr & Hx & Rb & Et & -> & ->).
    exists r. split; [apply In_counters_lt; exact Hr |].
    apply In_bmp_row_cells. exists x. rewrite Rb.
    cbn [default from_option id]. repeat split; try assumption; try lia.
    rewrite wrap32_add_r. f_equal.
    destruct (to_int32 height32 >? 0); lia.
Qed.

End Bitmap.

(** ** Glyphs and bitmaps: the statements *)

(** X13.  For a character in [first, last] whose glyph block lies inside the
    font, [ssd1306_draw_char_with_font] always returns on a display that
    satisfies the invariant, and the result satisfies it again; it sets exactly the existing pixels of the
    squares of side [scale] that stand for the bits set in the glyph, bit
    [j] of byte [lp] of column [w] at
    [(x + w * scale, y + (8 * lp + j) * scale)], and changes nothing
    else. *)
Theorem glyph_paints (p : ssd1306_t) (x y scale : Z) (font : list Z)
    (f0 f1 f3 f4 c : Z) :
  read font 0 = Some f0 -> read font 1 = Some f1 ->
  read font 3 = Some f3 -> read font 4 = Some f4 ->
  is_uint8 f0 -> is_uint8 f1 -> is_uint8 f3 -> is_uint8 c -> f3 <= c <= f4 ->
  5 + (c - f3 + 1) * f1 * parts_per_line f0 <= Z.of_nat (length font) ->
  geometry_ok p ->
  exists p', ssd1306_draw_char_with_font p x y scale font c = Some p' /\
             geometry_ok p' /\
             paints (glyph_pixel font f0 f1 f3 x y scale c) p p'.
Proof.
  intros R0 R1 R3 R4 B0 B1 B3 Bc Hc Hfont G.
  destruct (draw_char_paints font f0 f1 f3 f4 c R0 R1 R3 R4 B0 B1 B3 Hc Bc
              Hfont p x y scale G) as (p' & E & P).
  exists p'. split; [exact E |].
  split; [exact (paints_geometry _ _ _ P G) | exact P].
Qed.

Lemma glyph_paints_witness :
  exists p', ssd1306_draw_char_with_font oled_128x64 10 20 3 font_A 65
             = Some p' /\ geometry_ok p' /\
             paints (glyph_pixel font_A 8 2 65 10 20 3 65) oled_128x64 p'.
Proof.
  apply (glyph_paints oled_128x64 10 20 3 font_A 8 2 65 65 65
           eq_refl eq_refl eq_refl eq_refl);
    try (unfold is_uint8; lia); try lia.
  - vm_compute. discriminate.
  - exact oled_128x64_geometry.
Defined.

(** X14.  For an image that passes the three guards, whose colour table can
    be read and whose rows lie inside the array,
    [ssd1306_bmp_show_image_with_offset] always returns on a display that
    satisfies the invariant, and the result satisfies it again; it sets exactly the existing pixels
    [(x_offset + x, y_offset + y)] whose bit equals the foreground value,
    the row stored first being the bottom one when the height is positive
    and the top one otherwise, and changes nothing else. *)
Theorem bmp_paints (p : ssd1306_t) (data : list Z)
    (size x_offset y_offset : Z)
    (bfOffBits biSize biWidth height32 color_val : Z) :
  54 <= size ->
  ssd1306_bmp_get_val data 10 4 = Some bfOffBits ->
  ssd1306_bmp_get_val data 14 4 = Some biSize ->
  ssd1306_bmp_get_val data 18 4 = Some biWidth ->
  ssd1306_bmp_get_val data 22 4 = Some height32 ->
  wrap16 <$> ssd1306_bmp_get_val data 28 2 = Some 1 ->
  ssd1306_bmp_get_val data 30 4 = Some 0 ->
  bmp_color_val data (to_int32 (14 + biSize)) = Some color_val ->
  to_int32 height32 <> INT32_MIN ->
  bfOffBits + Z.abs (to_int32 height32) * bmp_bytes_per_line biWidth
    <= Z.of_nat (length data) ->
  geometry_ok p ->
  exists p',
    ssd1306_bmp_show_image_with_offset p data size x_offset y_offset = Some p'
    /\ geometry_ok p'
    /\ paints (bmp_pixel data bfOffBits biWidth (to_int32 height32) color_val
                         x_offset y_offset) p p'.
Proof.
  intros Hs E10 E14 E18 E22 E28 E30 Ecv Hmin Hrows G.
  destruct (bmp_show_paints data size x_offset y_offset bfOffBits biSize
              biWidth height32 color_val Hs E10 E14 E18 E22 E28 E30 Ecv Hmin
              Hrows p G) as (p' & E & P).
  exists p'. split; [exact E |].
  split; [exact (paints_geometry _ _ _ P G) | exact P].
Qed.

Lemma bmp_paints_witness :
  exists p',
    ssd1306_bmp_show_image_with_offset oled_128x64 (bmp_1x1 1 0 0) 66 3 4
    = Some p'
    /\ geometry_ok p'
    /\ paints (bmp_pixel (bmp_1x1 1 0 0) 62 1 (to_int32 1) 0 3 4)
              oled_128x64 p'.
Proof.
  apply (bmp_paints oled_128x64 (bmp_1x1 1 0 0) 66 3 4 62 40 1 1 0);
    try reflexivity.
  - lia.
  - vm_compute. discriminate.
  - exact oled_128x64_geometry.
Defined.

(** ** Header fields *)

Lemma lor_shiftl_add a b n :
  0 <= n -> 0 <= a < 2 ^ n -> Z.lor a (Z.shiftl b n) = a + b * 2 ^ n.
Proof.
  intros Hn Ha. rewrite Z.shiftl_mul_pow2 by exact Hn.
  rewrite <- Z.lxor_lor, <- Z.add_nocarry_lxor; try reflexivity;
    rewrite <- Z.shiftl_mul_pow2 by exact Hn;
    apply Z.bits_inj'; intros i Hi;
    rewrite Z.land_spec, Z.bits_0;
    destruct (Z.ltb_spec i n);
    [rewrite Z.shiftl_spec_low by lia; apply andb_false_r
    |rewrite <- (Z.mod_small a (2 ^ n)) by exact Ha;
     rewrite Z.mod_pow2_bits_high by lia; reflexivity
    |rewrite Z.shiftl_spec_low by lia; apply andb_false_r
    |rewrite <- (Z.mod_small a (2 ^ n)) by exact Ha;
     rewrite Z.mod_pow2_bits_high by lia; reflexivity].
Qed.

(** X15.  [ssd1306_bmp_get_val] reads a little-endian field: for bytes
    [b0 .. b3] at [offset], the value of size 4 is
    [b0 + 2^8 b1 + 2^16 b2 + 2^24 b3], the value of size 2 is
    [b0 + 2^8 b1] and the value of size 1 is [b0]. *)
Theorem bmp_get_val_little_endian (data : list Z) (offset b0 b1 b2 b3 : Z) :
  read data offset = Some b0 -> read data (offset + 1) = Some b1 ->
  read data (offset + 2) = Some b2 -> read data (offset + 3) = Some b3 ->
  is_uint8 b0 -> is_uint8 b1 -> is_uint8 b2 -> is_uint8 b3 ->
  ssd1306_bmp_get_val data offset 4
    = Some (b0 + 2 ^ 8 * b1 + 2 ^ 16 * b2 + 2 ^ 24 * b3) /\
  ssd1306_bmp_get_val data offset 2 = Some (b0 + 2 ^ 8 * b1) /\
  ssd1306_bmp_get_val data offset 1 = Some b0.
Proof.
  unfold is_uint8. intros R0 R1 R2 R3 H0 H1 H2 H3.
  unfold ssd1306_bmp_get_val. rewrite R0, R1, R2, R3.
  cbn [mbind option_bind].
  change (2 ^ 8) with 256 in *.
  rewrite (lor_shiftl_add b0 b1 8) by (change (2 ^ 8) with 256; lia).
  rewrite (lor_shiftl_add _ b2 16) by (change (2 ^ 8) with 256;
                                        change (2 ^ 16) with 65536; lia).
  rewrite (lor_shiftl_add _ b3 24) by (change (2 ^ 8) with 256;
                                        change (2 ^ 16) with 65536;
                                        change (2 ^ 24) with 16777216; lia).
  change (2 ^ 8) with 256. change (2 ^ 16) with 65536.
  change (2 ^ 24) with 16777216.
  rewrite !wrap32_small by (change (2 ^ 32) with 4294967296; lia).
  repeat split; f_equal; lia.
Qed.

Lemma bmp_get_val_little_endian_witness :
  ssd1306_bmp_get_val (bmp_1x1 1 0 0) 10 4
    = Some (62 + 2 ^ 8 * 0 + 2 ^ 16 * 0 + 2 ^ 24 * 0) /\
  ssd1306_bmp_get_val (bmp_1x1 1 0 0) 10 2 = Some (62 + 2 ^ 8 * 0) /\
  ssd1306_bmp_get_val (bmp_1x1 1 0 0) 10 1 = Some 62.
Proof.
  apply (bmp_get_val_little_endian (bmp_1x1 1 0 0) 10 62 0 0 0
           eq_refl eq_refl eq_refl eq_refl);
    unfold is_uint8; lia.
Defined.

(** ** Strings as sequences of glyphs *)

Lemma glyph_pixel_wrap font f0 f1 f3 x y scale c a b :
  glyph_pixel font f0 f1 f3 (wrap32 x) y scale c a b
  <-> glyph_pixel font f0 f1 f3 x y scale c a b.
Proof.
  unfold glyph_pixel.
  split; intros (w & lp & j & line & dx & dy & H);
    exists w, lp, j, line, dx, dy;
    replace (wrap32 x + w * scale + dx) with (wrap32 x + (w * scale + dx))
      in * by lia;
    replace (x + w * scale + dx) with (x + (w * scale + dx)) in * by lia;
    rewrite wrap32_add_l in *; exact H.
Qed.

Lemma c_string_uint8 s :
  List.Forall is_uint8 s -> List.Forall is_uint8 (c_string s).
Proof.
  induction 1 as [|c s Hc _ IH]; cbn [c_string]; [constructor |].
  destruct (c =? 0); constructor; assumption.
Qed.

Section Strings.

Variables (font : list Z) (f0 f1 f2 f3 f4 : Z) (x y scale : Z).
Hypotheses (R0 : read font 0 = Some f0) (R1 : read font 1 = Some f1)
           (R2 : read font 2 = Some f2)
           (R3 : read font 3 = Some f3) (R4 : read font 4 = Some f4).
Hypotheses (B0 : is_uint8 f0) (B1 : is_uint8 f1) (B3 : is_uint8 f3).
(** The blocks of all the glyphs from [first] to [last] lie inside the
    font. *)
Hypothesis Hfont :
  5 + (f4 - f3 + 1) * f1 * parts_per_line f0 <= Z.of_nat (length font).

Lemma draw_chars_from_paints cs :
  List.Forall is_uint8 cs ->
  forall n p, geometry_ok p ->
    exists p',
      draw_chars_from n cs x y scale ((f1 + f2) * scale) font p = Some p' /\
      paints (fun a b =>
                exists k ch, nth_error cs k = Some ch /\ f3 <= ch <= f4 /\
                  glyph_pixel font f0 f1 f3
                    (x + Z.of_nat (n + k) * ((f1 + f2) * scale)) y scale ch
                    a b)
             p p'.
Proof.
  pose proof (parts_per_line_range f0 B0) as Hp.
  induction 1 as [|ch cs Hch _ IH]; intros n p G; cbn [draw_chars_from].
  - exists p. split; [reflexivity |].
    eapply paints_iff; [| apply paints_nothing].
    intros a b _ _. split; [tauto |]. intros (k & c & Hk & _).
    destruct k; discriminate Hk.
  - assert (exists p1,
              ssd1306_draw_char_with_font p
                (wrap32 (x + Z.of_nat n * ((f1 + f2) * scale))) y scale font ch
              = Some p1 /\
              paints (fun a b => f3 <= ch <= f4 /\
                        glyph_pixel font f0 f1 f3
                          (x + Z.of_nat n * ((f1 + f2) * scale)) y scale ch
                          a b) p p1) as (p1 & E1 & P1).
    { destruct (Z.lt_ge_cases ch f3) as [Hlo | Hlo];
        [| destruct (Z.lt_ge_cases f4 ch) as [Hhi | Hhi]].
      - exists p. split; [eapply skipped_char_draws_nothing; eauto |].
        eapply paints_iff; [| apply paints_nothing].
        intros a b _ _. split; [tauto | lia].
      - exists p. split; [eapply skipped_char_draws_nothing; eauto |].
        eapply paints_iff; [| apply paints_nothing].
        intros a b _ _. split; [tauto | lia].
      - destruct (draw_char_paints font f0 f1 f3 f4 ch R0 R1 R3 R4 B0 B1 B3
                    ltac:(lia) Hch
                    ltac:(unfold is_uint8 in *; change (2 ^ 8) with 256 in *;
                          nia)
                    p (wrap32 (x + Z.of_nat n * ((f1 + f2) * scale)))
                    y scale G) as (p1 & E1 & P1).
        exists p1. split; [exact E1 |].
        eapply paints_iff; [| exact P1]. intros a b _ _.
        split.
        + intros H. split; [lia |]. apply glyph_pixel_wrap. exact H.
        + intros [_ H]. apply glyph_pixel_wrap in H. exact H. }
    rewrite E1. cbn [mbind option_bind].
    destruct (IH (S n) p1 (same_fields_geometry _ _ (proj1 P1) G))
      as (p' & E & P).
    exists p'. split; [exact E |].
    eapply paints_iff; [| eapply paints_compose; eauto].
    intros a b _ _. cbn beta. split.
    + intros [[Hr Hg] | (k & c & Hk & Hr & Hg)].
      * exists 0%nat, ch. rewrite Nat.add_0_r. auto.
      * exists (S k), c. replace (n + S k)%nat with (S n + k)%nat by lia. auto.
    + intros (k & c & Hk & Hr & Hg). destruct k as [|k].
      * injection Hk as <-. rewrite Nat.add_0_r in Hg. left. auto.
      * right. exists k, c.
        replace (S n + k)%nat with (n + S k)%nat by lia. auto.
Qed.

Lemma draw_string_paints s p :
  List.Forall is_uint8 s -> geometry_ok p ->
  exists p',
    ssd1306_draw_string_with_font p x y scale font s = Some p' /\
    paints (fun a b =>
              exists k ch, nth_error (c_string s) k = Some ch /\
                f3 <= ch <= f4 /\
                glyph_pixel font f0 f1 f3
                  (x + Z.of_nat k * ((f1 + f2) * scale)) y scale ch a b)
           p p'.
Proof.
  intros Hs G. unfold ssd1306_draw_string_with_font.
  rewrite (draw_string_loop_spec font f1 f2 y scale s R1 R2 0 x)
    by (rewrite wrap32_to_int32; f_equal; lia).
  apply (draw_chars_from_paints _ (c_string_uint8 s Hs) 0 p G).
Qed.

End Strings.

(** X16.  With a font that holds the blocks of all its glyphs,
    [ssd1306_draw_string_with_font] always returns on a display that
    satisfies the invariant, and the result satisfies it again; it sets exactly the existing pixels of the
    glyphs of the characters in [first, last], character number [k] drawn
    at [x + k * (font[1] + font[2]) * scale], and changes nothing else:
    characters outside the range leave a gap, and no pixel is ever unset. *)
Theorem string_paints (p : ssd1306_t) (x y scale : Z) (font s : list Z)
    (f0 f1 f2 f3 f4 : Z) :
  read font 0 = Some f0 -> read font 1 = Some f1 -> read font 2 = Some f2 ->
  read font 3 = Some f3 -> read font 4 = Some f4 ->
  is_uint8 f0 -> is_uint8 f1 -> is_uint8 f3 ->
  5 + (f4 - f3 + 1) * f1 * parts_per_line f0 <= Z.of_nat (length font) ->
  List.Forall is_uint8 s -> geometry_ok p ->
  exists p',
    ssd1306_draw_string_with_font p x y scale font s = Some p' /\
    geometry_ok p' /\
    paints (fun a b =>
              exists k ch, nth_error (c_string s) k = Some ch /\
                f3 <= ch <= f4 /\
                glyph_pixel font f0 f1 f3
                  (x + Z.of_nat k * ((f1 + f2) * scale)) y scale ch a b)
           p p'.
Proof.
  intros R0 R1 R2 R3 R4 B0 B1 B3 Hfont Hs G.
  destruct (draw_string_paints font f0 f1 f2 f3 f4 x y scale R0 R1 R2 R3 R4
              B0 B1 B3 Hfont s p Hs G) as (p' & E & P).
  exists p'. split; [exact E |].
  split; [exact (paints_geometry _ _ _ P G) | exact P].
Qed.

Lemma string_paints_witness :
  exists p',
    ssd1306_draw_string_with_font oled_128x64 0 0 1 font_A [65; 66; 65]
    = Some p' /\
    geometry_ok p' /\
    paints (fun a b =>
              exists k ch, nth_error (c_string [65; 66; 65]) k = Some ch /\
                65 <= ch <= 65 /\
                glyph_pixel font_A 8 2 65
                  (0 + Z.of_nat k * ((2 + 1) * 1)) 0 1 ch a b)
           oled_128x64 p'.
Proof.
  apply (string_paints oled_128x64 0 0 1 font_A [65; 66; 65] 8 2 1 65 65
           eq_refl eq_refl eq_refl eq_refl eq_refl);
    try (unfold is_uint8; lia).
  - vm_compute. discriminate.
  - repeat constructor; unfold is_uint8; lia.
  - exact oled_128x64_geometry.
Defined.

(** ** The frame on the bus *)



(** ** Initialisation, then clearing *)

(** X18.  After a successful [ssd1306_init] with a width and a height that
    fit the fields, the height a multiple of 8, a block of the size asked
    for and a rotation field in 0..3, [ssd1306_clear] returns a display
    that satisfies the invariant, has the dimensions asked for and has
    every pixel unset. *)
Theorem init_then_clear (p : ssd1306_t) (w h a i : Z) (malloc : allocator)
    (p1 : ssd1306_t) (tr : list transfer) :
  0 < w <= 255 -> 0 < h <= 255 -> h mod 8 = 0 ->
  (forall n block, malloc n = Some block -> Z.of_nat (length block) = n) ->
  0 <= rotation p <= 3 ->
  ssd1306_init p w h a i malloc = (true, p1, tr) ->
  exists p2, ssd1306_clear p1 = Some p2 /\ geometry_ok p2 /\
             width p2 = w /\ height p2 = h /\
             forall x y, is_uint32 x -> is_uint32 y ->
                         get_pixel p2 x y <> Some true.
Proof.
  intros Hw Hh Hm Hmalloc Hr Hinit.
  destruct (init_geometry _ _ _ _ _ _ _ _ Hw Hh Hm Hmalloc Hinit)
    as (G1 & G2 & G3 & G4).
  destruct (init_fields _ _ _ _ _ _ _ _ Hinit) as (Ew & Eh & _ & _ & Er).
  rewrite wrap8_small in Ew, Eh by (change (2 ^ 8) with 256; lia).
  assert (geometry_ok p1) as G.
  { constructor; try assumption; unfold is_uint8;
      rewrite ?Ew, ?Eh, ?Er; try (change (2 ^ 8) with 256; lia). }
  destruct (clear_erases p1 G) as (p2 & E & _ & P).
  exists p2. split; [exact E |].
  split; [exact (same_fields_geometry _ _ (proj1 P) G) |].
  destruct (same_fields_proj _ _ (proj1 P)) as (Ew2 & Eh2 & _).
  split; [congruence |]. split; [congruence |].
  intros x y Hx Hy. destruct P as [_ P]. specialize (P x y Hx Hy).
  destruct (get_pixel p1 x y) as [old|].
  - destruct P as (new & -> & Hnew). intros [= ->].
    destruct (proj1 Hnew eq_refl) as [_ Hfalse]. apply Hfalse. exact I.
  - rewrite P. discriminate.
Qed.

Lemma init_then_clear_witness :
  exists p2, ssd1306_clear (snd (fst (ssd1306_init blank 128 64 0x3C 0
                                        malloc_sized))) = Some p2 /\
             geometry_ok p2 /\ width p2 = 128 /\ height p2 = 64 /\
             forall x y, is_uint32 x -> is_uint32 y ->
                         get_pixel p2 x y <> Some true.
Proof.
  apply (init_then_clear blank 128 64 0x3C 0 malloc_sized _
           (snd (ssd1306_init blank 128 64 0x3C 0 malloc_sized))).
  - lia.
  - lia.
  - reflexivity.
  - intros n block. unfold malloc_sized.
    destruct (Z.ltb_spec n 0); [discriminate |].
    intros [= <-]. rewrite repeat_length. lia.
  - cbn. lia.
  - vm_compute. reflexivity.
Defined.

(** X19.  When the allocation fails, [ssd1306_init] returns [false] and
    sends nothing on the bus; the display it leaves has [bufsize] 0 and an
    empty buffer, so that a pixel call that passes the bounds check has no
    defined result. *)
Theorem init_failure (p : ssd1306_t) (w h a i : Z) (malloc : allocator) :
  malloc (wrap8 (h / 8) * wrap8 w + 1) = None ->
  exists p',
    ssd1306_init p w h a i malloc = (false, p', []) /\
    bufsize p' = 0 /\ buffer p' = [] /\
    forall x y bx by',
      buffer_xy p' x y = Some (bx, by') ->
      bx < width p' -> by' < height p' ->
      ssd1306_draw_pixel p' x y = None /\ ssd1306_clear_pixel p' x y = None.
Proof.
  intros Hm. unfold ssd1306_init. rewrite Hm.
  eexists. split; [reflexivity |]. split; [reflexivity |].
  split; [reflexivity |].
  intros x y bx by' E Hx Hy.
  unfold ssd1306_draw_pixel, ssd1306_clear_pixel. rewrite E.
  cbn [mbind option_bind].
  rewrite (proj2 (Z.ltb_lt _ _) Hx), (proj2 (Z.ltb_lt _ _) Hy).
  cbn [andb]. unfold modify_byte, read. cbn [buffer].
  destruct (_ <? 0); split; reflexivity.
Qed.

Lemma init_failure_witness :
  exists p',
    ssd1306_init blank 128 64 0x3C 0 (fun _ => None) = (false, p', []) /\
    bufsize p' = 0 /\ buffer p' = [] /\
    forall x y bx by',
      buffer_xy p' x y = Some (bx, by') ->
      bx < width p' -> by' < height p' ->
      ssd1306_draw_pixel p' x y = None /\ ssd1306_clear_pixel p' x y = None.
Proof.
  apply (init_failure blank 128 64 0x3C 0 (fun _ => None)). reflexivity.
Defined.

(** ** Commands *)

(** X20.  [ssd1306_invert] looks at the lowest bit of its argument only: an
    even argument, zero or not, sends [SET_NORM_INV] (0xA6) and an odd one
    sends 0xA7. *)
Theorem invert_lowest_bit (p : ssd1306_t) (inv : Z) :
  ssd1306_invert p inv
  = [(address p, [0x00; if Z.even inv then 0xA6 else 0xA7])].
Proof.
  unfold ssd1306_invert, ssd1306_write. do 3 f_equal.
  change 1 with (Z.ones 1). rewrite Z.land_ones by lia. change (2 ^ 1) with 2.
  rewrite Zmod_even. destruct (Z.even inv); reflexivity.
Qed.
